(** * Label verification backend: OCR extraction, field matching, HTTP handler

    A shallow embedding of the three backend modules

    - [verification_service.py]  (class [VerificationService])
    - [ocr_service.py]           (class [OCRService])
    - [app.py]                   (the Flask handler [verify])

    together with the parts of Python's [str] and [re] that they call.

    Python strings are modelled as [string]s whose characters are the code
    points U+0000 .. U+00FF (Latin-1): this range is closed under
    [str.lower], and the character tables below ([isspace], [\d], [\w],
    [re.escape]) are the ones Python uses on that range.  Exceptions are
    values of [exn]; a computation that may raise returns [outcome]. *)

From Stdlib Require Import String Ascii List Bool Arith Lia.
From stdpp Require Import gmap strings.

Local Open Scope string_scope.

#[global] Arguments String.append !s1 s2 : simpl nomatch.

(** ** Exceptions *)

Inductive exn : Type :=
| KeyError (key : string)
| TypeError
| ReError
| TesseractNotFoundError
| OtherException (msg : string).

Inductive outcome (A : Type) : Type :=
| Ok (a : A)
| Raise (e : exn).

Arguments Ok {A} a.
Arguments Raise {A} e.

#[global] Instance outcome_ret : MRet outcome := fun _ a => Ok a.

#[global] Instance outcome_bind : MBind outcome := fun _ _ f x =>
  match x with
  | Ok a => f a
  | Raise e => Raise e
  end.

(** ** Python [str] on Latin-1 *)

Module Str.

Definition code (c : ascii) : nat := nat_of_ascii c.

Definition between (lo hi : nat) (c : ascii) : bool :=
  ((lo <=? code c) && (code c <=? hi))%nat.

(** [str.isspace] for one character; also the regex class [\s]. *)
Definition isspace (c : ascii) : bool :=
  between 9 13 c || between 28 32 c || (code c =? 133)%nat || (code c =? 160)%nat.

(** The regex class [\d] (Unicode category Nd). *)
Definition isdigit (c : ascii) : bool := between 48 57 c.

(** The regex class [\w]: [str.isalnum] or underscore. *)
Definition isword (c : ascii) : bool :=
  between 48 57 c || between 65 90 c || (code c =? 95)%nat || between 97 122 c
  || (code c =? 170)%nat || between 178 179 c || (code c =? 181)%nat
  || between 185 186 c || between 188 190 c
  || between 192 214 c || between 216 246 c || between 248 255 c.

(** Is there a word character here?  [None] is an end of the text. *)
Definition isword_opt (o : option ascii) : bool :=
  match o with
  | Some c => isword c
  | None => false
  end.

(** Characters that have a distinct lowercase form. *)
Definition isupper (c : ascii) : bool :=
  between 65 90 c || between 192 214 c || between 216 222 c.

Definition lower_char (c : ascii) : ascii :=
  if isupper c then ascii_of_nat (code c + 32) else c.

(** [s.lower()] *)
Fixpoint lower (s : string) : string :=
  match s with
  | EmptyString => EmptyString
  | String c s' => String (lower_char c) (lower s')
  end.

(** [s.lstrip()] *)
Fixpoint lstrip (s : string) : string :=
  match s with
  | EmptyString => EmptyString
  | String c s' => if isspace c then lstrip s' else s
  end.

(** [s.rstrip()] *)
Fixpoint rstrip (s : string) : string :=
  match s with
  | EmptyString => EmptyString
  | String c s' =>
      match rstrip s' with
      | EmptyString => if isspace c then EmptyString else String c EmptyString
      | r => String c r
      end
  end.

(** [s.strip()] *)
Definition strip (s : string) : string := rstrip (lstrip s).

(** [s.startswith(p)] *)
Fixpoint startswith (p s : string) : bool :=
  match p, s with
  | EmptyString, _ => true
  | String a p', String b s' => Ascii.eqb a b && startswith p' s'
  | String _ _, EmptyString => false
  end.

(** [sub in s] *)
Fixpoint contains (sub s : string) : bool :=
  startswith sub s ||
  match s with
  | EmptyString => false
  | String _ s' => contains sub s'
  end.

(** [s.replace(old, new)] for a one-character [old]. *)
Fixpoint replace (old : ascii) (new : string) (s : string) : string :=
  match s with
  | EmptyString => EmptyString
  | String c s' =>
      if Ascii.eqb c old then new +:+ replace old new s'
      else String c (replace old new s')
  end.

(** Truthiness of a string: [bool(s)]. *)
Definition truthy (s : string) : bool :=
  match s with
  | EmptyString => false
  | String _ _ => true
  end.

(** [s] occurs in [t] as a contiguous block. *)
Definition substring_of (s t : string) : Prop :=
  exists pre post, t = pre +:+ s +:+ post.

(** No whitespace at either end. *)
Definition trimmed (s : string) : Prop := strip s = s.

(** Every character of [s] satisfies [P]. *)
Fixpoint all (P : ascii -> bool) (s : string) : bool :=
  match s with
  | EmptyString => true
  | String c s' => P c && all P s'
  end.

(** The character before the end of [pre], [prev] standing before [pre]. *)
Fixpoint last_of (prev : option ascii) (pre : string) : option ascii :=
  match pre with
  | EmptyString => prev
  | String c pre' => last_of (Some c) pre'
  end.

End Str.

(** ** Python [re]: the pattern syntax and matching the services rely on *)

Module Re.

(** Items of a bracketed character class; [\s], [\d] and [\w] outside
    brackets are one-item classes. *)
Inductive citem : Type :=
| CChar (c : ascii)
| CRange (lo hi : ascii)
| CSpace
| CDigit
| CWord.

Inductive quant : Type := QStar | QPlus | QOpt.

Inductive regex : Type :=
| REps
| RLit (c : ascii)
| RAny
| RIn (items : list citem)
| RWordB
| RSeq (r1 r2 : regex)
| RGroup (cap : option nat) (r : regex)
| RQuant (q : quant) (r : regex).

(** [re.escape]: a backslash before each of
    [()[]{}?*+-|^$\.&~#] and the six ASCII whitespace characters. *)
Definition special (c : ascii) : bool :=
  Str.between 9 13 c || existsb (Nat.eqb (Str.code c))
    [32; 35; 36; 38; 40; 41; 42; 43; 45; 46; 63; 91; 92; 93; 94; 123; 124; 125; 126]%nat.

Fixpoint escape (s : string) : string :=
  match s with
  | EmptyString => EmptyString
  | String c s' =>
      if special c then String "\" (String c (escape s'))
      else String c (escape s')
  end.

(** *** Compiling a pattern

    The parser reads the pattern one character at a time.  It accepts the
    constructs the services' patterns are made of (literals, backslash
    escapes, [.], bracketed classes, capturing and [(?:...)] groups and the
    greedy quantifiers [*], [+], [?]) and answers [None] on anything else,
    which for a malformed pattern stands for [re.error]. *)

Definition isalnum_ascii (c : ascii) : bool :=
  Str.between 48 57 c || Str.between 65 90 c || Str.between 97 122 c.

Inductive nkind : Type :=
| NLit | NBackslash | NBracket | NOpen | NClose | NQuant (q : quant) | NDot
| NUnsupported.

(** What an unescaped character means outside brackets. *)
Definition normal_kind (c : ascii) : nkind :=
  if Ascii.eqb c "\" then NBackslash
  else if Ascii.eqb c "[" then NBracket
  else if Ascii.eqb c "(" then NOpen
  else if Ascii.eqb c ")" then NClose
  else if Ascii.eqb c "*" then NQuant QStar
  else if Ascii.eqb c "+" then NQuant QPlus
  else if Ascii.eqb c "?" then NQuant QOpt
  else if Ascii.eqb c "." then NDot
  else if existsb (Ascii.eqb c) ["|"; "^"; "$"; "{"; "}"; "]"]%char then NUnsupported
  else NLit.

(** What [\c] means outside brackets. *)
Definition escape_atom (c : ascii) : option regex :=
  if Ascii.eqb c "b" then Some RWordB
  else if Ascii.eqb c "s" then Some (RIn [CSpace])
  else if Ascii.eqb c "d" then Some (RIn [CDigit])
  else if Ascii.eqb c "w" then Some (RIn [CWord])
  else if isalnum_ascii c then None
  else Some (RLit c).

(** What [\c] means inside brackets. *)
Definition escape_item (c : ascii) : option citem :=
  if Ascii.eqb c "s" then Some CSpace
  else if Ascii.eqb c "d" then Some CDigit
  else if Ascii.eqb c "w" then Some CWord
  else if isalnum_ascii c then None
  else Some (CChar c).

Inductive pmode : Type :=
| PNormal
| PEsc
| POpen
| POpenQ
| PClass (items : list citem) (pend : option citem) (dash : bool)
| PClassEsc (items : list citem).

(** Parser state: the mode, the atoms of the sequence being read (latest
    first), the enclosing groups with the atoms read before each, and the
    number of the next capturing group. *)
Record pstate : Type := mkP {
  p_mode : pmode;
  p_items : list regex;
  p_stack : list (option nat * list regex);
  p_next : nat
}.

Definition seq_of (atoms : list regex) : regex := foldr RSeq REps atoms.

Definition push_atom (a : regex) (st : pstate) : pstate :=
  mkP PNormal (a :: p_items st) (p_stack st) (p_next st).

Definition with_mode (md : pmode) (st : pstate) : pstate :=
  mkP md (p_items st) (p_stack st) (p_next st).

(** A quantifier applies to the atom just read; nothing to repeat, a
    repeated [\b] and a second quantifier are refused. *)
Definition apply_quant (q : quant) (st : pstate) : option pstate :=
  match p_items st with
  | [] => None
  | RWordB :: _ => None
  | RQuant _ _ :: _ => None
  | a :: rest => Some (mkP PNormal (RQuant q a :: rest) (p_stack st) (p_next st))
  end.

Definition open_group (cap : option nat) (next : nat) (st : pstate) : pstate :=
  mkP PNormal [] ((cap, p_items st) :: p_stack st) next.

Definition close_group (st : pstate) : option pstate :=
  match p_stack st with
  | [] => None
  | (cap, outer) :: stack =>
      Some (mkP PNormal (RGroup cap (seq_of (rev (p_items st))) :: outer)
                stack (p_next st))
  end.

Definition normal_step (c : ascii) (st : pstate) : option pstate :=
  match normal_kind c with
  | NLit => Some (push_atom (RLit c) st)
  | NDot => Some (push_atom RAny st)
  | NBackslash => Some (with_mode PEsc st)
  | NBracket => Some (with_mode (PClass [] None false) st)
  | NOpen => Some (with_mode POpen st)
  | NClose => close_group st
  | NQuant q => apply_quant q st
  | NUnsupported => None
  end.

(** Reading the next member of a bracketed class, [items] being complete. *)
Definition class_this (items : list citem) (c : ascii) (st : pstate)
  : option pstate :=
  if Ascii.eqb c "]" then
    match items with
    | [] => None
    | _ => Some (push_atom (RIn items) st)
    end
  else if Ascii.eqb c "\" then Some (with_mode (PClassEsc items) st)
  else if Ascii.eqb c "[" then None
  else if Ascii.eqb c "^" && match items with [] => true | _ => false end
  then None
  else Some (with_mode (PClass items (Some (CChar c)) false) st).

Definition class_step (items : list citem) (pend : option citem) (dash : bool)
    (c : ascii) (st : pstate) : option pstate :=
  match pend with
  | None => class_this items c st
  | Some code1 =>
      if dash then
        if Ascii.eqb c "]" then
          Some (push_atom (RIn (items ++ [code1; CChar "-"])) st)
        else if Ascii.eqb c "\" then None
        else
          match code1 with
          | CChar lo =>
              if (Str.code lo <=? Str.code c)%nat
              then Some (with_mode (PClass (items ++ [CRange lo c]) None false) st)
              else None
          | _ => None
          end
      else if Ascii.eqb c "-" then Some (with_mode (PClass items pend true) st)
      else class_this (items ++ [code1]) c st
  end.

Definition pstep (st : pstate) (c : ascii) : option pstate :=
  match p_mode st with
  | PNormal => normal_step c st
  | PEsc => a ← escape_atom c; Some (push_atom a st)
  | POpen =>
      if Ascii.eqb c "?" then Some (with_mode POpenQ st)
      else normal_step c (open_group (Some (p_next st)) (S (p_next st)) st)
  | POpenQ =>
      if Ascii.eqb c ":" then Some (open_group None (p_next st) st) else None
  | PClass items pend dash => class_step items pend dash c st
  | PClassEsc items =>
      i ← escape_item c; Some (with_mode (PClass items (Some i) false) st)
  end.

Fixpoint prun (st : pstate) (p : string) : option pstate :=
  match p with
  | EmptyString => Some st
  | String c p' => st' ← pstep st c; prun st' p'
  end.

Definition pfinish (st : pstate) : option regex :=
  match p_mode st, p_stack st with
  | PNormal, [] => Some (seq_of (rev (p_items st)))
  | _, _ => None
  end.

(** [re.compile(pattern)]; groups are numbered from 1. *)
Definition compile (pattern : string) : option regex :=
  st ← prun (mkP PNormal [] [] 1) pattern; pfinish st.

(** *** Matching

    A backtracking matcher in continuation-passing style: alternatives are
    tried in the order Python tries them (a quantifier first takes as many
    repetitions as it can), so the first success is Python's match. *)

(** Where a match attempt stands: the character before the position, the
    text from the position on, the characters consumed since the start of
    the attempt (latest first) and the groups closed so far. *)
Record mstate : Type := mkM {
  m_prev : option ascii;
  m_rest : string;
  m_taken : list ascii;
  m_groups : list (nat * string)
}.

Definition unlower_char (c : ascii) : ascii :=
  if Str.between 97 122 c || Str.between 224 246 c || Str.between 248 254 c
  then ascii_of_nat (Str.code c - 32) else c.

(** Equality of a pattern character and a text character, under
    [re.IGNORECASE] when [ic] is set. *)
Definition lit_eq (ic : bool) (c d : ascii) : bool :=
  if ic then Ascii.eqb (Str.lower_char c) (Str.lower_char d) else Ascii.eqb c d.

Definition item_matches (ic : bool) (i : citem) (d : ascii) : bool :=
  match i with
  | CChar c => lit_eq ic c d
  | CRange lo hi =>
      if ic then
        Str.between (Str.code lo) (Str.code hi) (Str.lower_char d)
        || Str.between (Str.code lo) (Str.code hi) (unlower_char (Str.lower_char d))
      else Str.between (Str.code lo) (Str.code hi) d
  | CSpace => Str.isspace d
  | CDigit => Str.isdigit d
  | CWord => Str.isword d
  end.

(** Which text characters a one-character atom accepts. *)
Definition accepts (ic : bool) (r : regex) (d : ascii) : bool :=
  match r with
  | RLit c => lit_eq ic c d
  | RAny => negb (Ascii.eqb d "010")
  | RIn items => existsb (fun i => item_matches ic i d) items
  | _ => false
  end.

Definition advance (d : ascii) (s' : string) (st : mstate) : mstate :=
  mkM (Some d) s' (d :: m_taken st) (m_groups st).

Definition word_before (st : mstate) : bool := Str.isword_opt (m_prev st).

Definition word_after (st : mstate) : bool :=
  match m_rest st with
  | String c _ => Str.isword c
  | EmptyString => false
  end.

(** The text consumed between two states of one attempt. *)
Definition captured (st st' : mstate) : string :=
  string_of_list_ascii
    (rev (firstn (List.length (m_taken st') - List.length (m_taken st)) (m_taken st'))).

Definition set_group (cap : option nat) (text : string) (st : mstate) : mstate :=
  match cap with
  | None => st
  | Some n => mkM (m_prev st) (m_rest st) (m_taken st) ((n, text) :: m_groups st)
  end.

(** Greedy repetition of [body]: every repetition has to consume text. *)
Fixpoint star (body : (mstate -> option mstate) -> mstate -> option mstate)
    (fuel : nat) (k : mstate -> option mstate) (st : mstate) : option mstate :=
  match fuel with
  | O => k st
  | S fuel' =>
      match body (fun st' =>
                    if (List.length (m_taken st) <? List.length (m_taken st'))%nat
                    then star body fuel' k st' else None) st with
      | Some res => Some res
      | None => k st
      end
  end.

Fixpoint mtch (ic : bool) (r : regex) (k : mstate -> option mstate)
    (st : mstate) : option mstate :=
  match r with
  | REps => k st
  | RLit _ | RAny | RIn _ =>
      match m_rest st with
      | String d s' => if accepts ic r d then k (advance d s' st) else None
      | EmptyString => None
      end
  | RWordB => if xorb (word_before st) (word_after st) then k st else None
  | RSeq r1 r2 => mtch ic r1 (mtch ic r2 k) st
  | RGroup cap r' =>
      mtch ic r' (fun st' => k (set_group cap (captured st st') st')) st
  | RQuant QOpt r' =>
      match mtch ic r' k st with
      | Some res => Some res
      | None => k st
      end
  | RQuant QStar r' => star (mtch ic r') (String.length (m_rest st)) k st
  | RQuant QPlus r' =>
      mtch ic r' (star (mtch ic r') (String.length (m_rest st)) k) st
  end.

(** A match object: [group(0)] and the numbered groups that took part. *)
Record match_obj : Type := mkMatch {
  group0 : string;
  groups : list (nat * string)
}.

(** [m.group(n)] for [n >= 1]: the latest capture, [None] if the group did
    not take part. *)
Fixpoint group_lookup (n : nat) (gs : list (nat * string)) : option string :=
  match gs with
  | [] => None
  | (i, t) :: gs' => if (i =? n)%nat then Some t else group_lookup n gs'
  end.

Definition group (m : match_obj) (n : nat) : option string :=
  group_lookup n (groups m).

Definition attempt (ic : bool) (r : regex) (prev : option ascii) (s : string)
  : option match_obj :=
  st ← mtch ic r Some (mkM prev s [] []);
  Some (mkMatch (string_of_list_ascii (rev (m_taken st))) (m_groups st)).

(** Leftmost match: attempts at successive positions of the text. *)
Fixpoint scan (ic : bool) (r : regex) (prev : option ascii) (s : string)
  : option match_obj :=
  match attempt ic r prev s with
  | Some m => Some m
  | None =>
      match s with
      | EmptyString => None
      | String c s' => scan ic r (Some c) s'
      end
  end.

(** [re.search(pattern, text)], with [flags=re.IGNORECASE] when [ic]. *)
Definition search (pattern text : string) (ic : bool)
  : outcome (option match_obj) :=
  match compile pattern with
  | None => Raise ReError
  | Some r => Ok (scan ic r None text)
  end.

(** *** What a successful match means

    [matches ic r st st'] : the regex [r] can take the attempt from [st]
    to [st'].  Every result of [mtch] is justified by this relation. *)

Inductive matches (ic : bool) : regex -> mstate -> mstate -> Prop :=
| M_Eps st : matches ic REps st st
| M_Char r d s' st :
    m_rest st = String d s' -> accepts ic r d = true ->
    matches ic r st (advance d s' st)
| M_WordB st :
    xorb (word_before st) (word_after st) = true -> matches ic RWordB st st
| M_Seq r1 r2 st st1 st2 :
    matches ic r1 st st1 -> matches ic r2 st1 st2 ->
    matches ic (RSeq r1 r2) st st2
| M_Group cap r st st' :
    matches ic r st st' ->
    matches ic (RGroup cap r) st (set_group cap (captured st st') st')
| M_Opt_some r st st' :
    matches ic r st st' -> matches ic (RQuant QOpt r) st st'
| M_Opt_none r st : matches ic (RQuant QOpt r) st st
| M_Star_nil r st : matches ic (RQuant QStar r) st st
| M_Star_cons r st st1 st2 :
    matches ic r st st1 -> matches ic (RQuant QStar r) st1 st2 ->
    matches ic (RQuant QStar r) st st2
| M_Plus r st st1 st2 :
    matches ic r st st1 -> matches ic (RQuant QStar r) st1 st2 ->
    matches ic (RQuant QPlus r) st st2.

Definition all_chars : list ascii := map ascii_of_nat (seq 0 256).

(** Every character [r] can consume satisfies [P]. *)
Fixpoint only (P : ascii -> bool) (ic : bool) (r : regex) : bool :=
  match r with
  | REps | RWordB => true
  | RLit _ | RAny | RIn _ =>
      forallb (fun d => implb (accepts ic r d) (P d)) all_chars
  | RSeq r1 r2 => only P ic r1 && only P ic r2
  | RGroup _ r' => only P ic r'
  | RQuant _ r' => only P ic r'
  end.

(** [r] has no capturing group. *)
Fixpoint nocap (r : regex) : bool :=
  match r with
  | RSeq r1 r2 => nocap r1 && nocap r2
  | RGroup (Some _) _ => false
  | RGroup None r' => nocap r'
  | RQuant _ r' => nocap r'
  | _ => true
  end.

(** The atoms of a literal string, and of a number written into a pattern
    unescaped (its [.] matches any character). *)
Definition lit_atoms (s : string) : list regex :=
  map RLit (list_ascii_of_string s).

Definition number_atom (c : ascii) : regex :=
  if Ascii.eqb c "." then RAny else RLit c.

Definition number_atoms (s : string) : list regex :=
  map number_atom (list_ascii_of_string s).

Definition digit_or_dot (c : ascii) : bool :=
  Str.isdigit c || Ascii.eqb c ".".

End Re.

(** ** verification_service.py *)

Module VerificationService.

(** The dict a field check returns.  [found = None] is the Python value
    [None] under the key ["found"]; [error = None] means the dict has no
    ["error"] key. *)
Record field_result : Type := mkField {
  match_ : bool;
  expected : string;
  found : option string;
  error : option string
}.

(** The dict [verify_label] returns. *)
Record verify_result : Type := mkVerify {
  overall_match : bool;
  details : gmap string field_result;
  ocr_text : string
}.

(** [form_data.get(key, "")] *)
Definition get_default (form_data : gmap string string) (key : string) : string :=
  default "" (form_data !! key).

(** Truthiness of [form_data.get(key)]: a missing key gives [None]. *)
Definition get_truthy (form_data : gmap string string) (key : string) : bool :=
  match form_data !! key with
  | Some v => Str.truthy v
  | None => false
  end.

Definition _normalize_text (text : string) : string :=
  Str.strip (Str.lower text).

Definition _check_brand_name (brand_name normalized_ocr : string) : field_result :=
  if negb (Str.truthy brand_name) then
    mkField false "" None (Some "Brand name not provided in form")
  else
    let normalized_brand := _normalize_text brand_name in
    if Str.contains normalized_brand normalized_ocr then
      mkField true brand_name (Some normalized_brand) None
    else
      mkField false brand_name None
        (Some ("Brand name '" +:+ brand_name +:+ "' not found in label")).

Definition _check_product_type (product_type normalized_ocr : string) : field_result :=
  if negb (Str.truthy product_type) then
    mkField false "" None (Some "Product type not provided in form")
  else
    let normalized_type := _normalize_text product_type in
    if Str.contains normalized_type normalized_ocr then
      mkField true product_type (Some normalized_type) None
    else
      mkField false product_type None
        (Some ("Product type '" +:+ product_type +:+ "' not found in label")).

(** [abv.strip().replace('%', '').strip()] *)
Definition abv_clean (abv : string) : string :=
  Str.strip (Str.replace "%" "" (Str.strip abv)).

(** [r'\b' + re.escape(abv_clean) + r'(?:\.0)?\s*%'] *)
Definition abv_pattern (abv : string) : string :=
  "\b" +:+ Re.escape (abv_clean abv) +:+ "(?:\.0)?\s*%".

Definition _check_abv (abv normalized_ocr : string) : outcome field_result :=
  if negb (Str.truthy abv) then
    Ok (mkField false "" None (Some "ABV not provided in form"))
  else
    let pattern := abv_pattern abv in
    m ← Re.search pattern normalized_ocr false;
    match m with
    | Some m => Ok (mkField true (abv +:+ "%") (Some (Re.group0 m)) None)
    | None =>
        Ok (mkField false (abv +:+ "%") None
              (Some ("ABV '" +:+ abv +:+ "%' not found in label")))
    end.

(** [r'(\d+(?:\.\d+)?)\s*([a-z.\s]+)'] *)
Definition volume_pattern : string := "(\d+(?:\.\d+)?)\s*([a-z.\s]+)".

(** [m.group(n)] used as a string: [None] there raises. *)
Definition group_str (m : Re.match_obj) (n : nat) : outcome string :=
  match Re.group m n with
  | Some t => Ok t
  | None => Raise TypeError
  end.

(** [number + r'\s*' + re.escape(unit)] *)
Definition contents_pattern (number unit : string) : string :=
  number +:+ "\s*" +:+ Re.escape unit.

Definition _check_net_contents (net_contents normalized_ocr : string)
  : outcome field_result :=
  if negb (Str.truthy net_contents) then
    Ok (mkField true "Not provided" (Some "Not checked") None)
  else
    let normalized_contents := _normalize_text net_contents in
    volume_match ← Re.search volume_pattern normalized_contents false;
    match volume_match with
    | None =>
        Ok (mkField false net_contents None
              (Some "Could not parse volume format from form input"))
    | Some volume_match =>
        number ← group_str volume_match 1;
        unit_raw ← group_str volume_match 2;
        let unit := Str.strip unit_raw in
        let pattern := contents_pattern number unit in
        m ← Re.search pattern normalized_ocr true;
        match m with
        | Some m => Ok (mkField true net_contents (Some (Re.group0 m)) None)
        | None =>
            Ok (mkField false net_contents None
                  (Some ("Net contents '" +:+ net_contents +:+ "' not found in label")))
        end
    end.

Definition _check_government_warning (normalized_ocr : string) : field_result :=
  if Str.contains "government warning" normalized_ocr then
    mkField true "Government Warning Present" (Some "GOVERNMENT WARNING") None
  else
    mkField false "Government Warning Present" None
      (Some "Government warning statement not found on label").

Definition required_fields : list string := ["brand_name"; "product_type"; "abv"].

(** The loop over [required_fields]: the first field whose check did not
    match sets [overall_match] to [False] and leaves the loop; indexing
    [details] with a missing key raises [KeyError]. *)
Fixpoint required_loop (details : gmap string field_result)
    (fields : list string) (overall : bool) : outcome bool :=
  match fields with
  | [] => Ok overall
  | field :: fields' =>
      match details !! field with
      | None => Raise (KeyError field)
      | Some r =>
          if negb (match_ r) then Ok false
          else required_loop details fields' overall
      end
  end.

Definition verify_label (form_data : gmap string string) (ocr_text : string)
  : outcome verify_result :=
  let normalized_ocr := _normalize_text ocr_text in
  let d0 : gmap string field_result := ∅ in
  let d1 := <["brand_name" :=
               _check_brand_name (get_default form_data "brand_name") normalized_ocr]> d0 in
  let d2 := <["product_type" :=
               _check_product_type (get_default form_data "product_type") normalized_ocr]> d1 in
  abv ← _check_abv (get_default form_data "abv") normalized_ocr;
  let d3 := <["abv" := abv]> d2 in
  d4 ← (if get_truthy form_data "net_contents" then
          nc ← _check_net_contents (get_default form_data "net_contents") normalized_ocr;
          Ok (<["net_contents" := nc]> d3)
        else Ok d3);
  let d5 := <["government_warning" := _check_government_warning normalized_ocr]> d4 in
  overall ← required_loop d5 required_fields true;
  Ok (mkVerify overall d5 ocr_text).

(** The shape every field-check dict is expected to have: ["match"] is
    true exactly when ["found"] is not [None], and there is an ["error"]
    key exactly when ["match"] is false. *)
Definition result_invariant (r : field_result) : Prop :=
  (match_ r = true <-> found r <> None) /\ (error r <> None <-> match_ r = false).

(** The cleaning of the ABV input as the specification words it: "strip a
    trailing [%] from input".  [abv_clean_spec] follows those words, to be
    compared with [abv_clean]. *)
Fixpoint rstrip_percent (s : string) : string :=
  match s with
  | EmptyString => EmptyString
  | String c EmptyString => if Ascii.eqb c "%" then EmptyString else s
  | String c s' => String c (rstrip_percent s')
  end.

Definition abv_clean_spec (abv : string) : string :=
  Str.strip (rstrip_percent (Str.strip abv)).

Definition not_percent (c : ascii) : bool := negb (Ascii.eqb c "%").

(** The regexes the three patterns compile to. *)
Definition abv_regex (abv : string) : Re.regex :=
  Re.seq_of (Re.RWordB :: Re.lit_atoms (abv_clean abv) ++
             [Re.RQuant Re.QOpt (Re.RGroup None (Re.seq_of [Re.RLit "."; Re.RLit "0"]));
              Re.RQuant Re.QStar (Re.RIn [Re.CSpace]);
              Re.RLit "%"]).

(** The regex of the ABV pattern for the input ["45"], evaluated. *)
Definition r45 : Re.regex := Eval vm_compute in abv_regex "45".

Definition number_regex : Re.regex :=
  Re.seq_of [Re.RQuant Re.QPlus (Re.RIn [Re.CDigit]);
             Re.RQuant Re.QOpt
               (Re.RGroup None
                  (Re.seq_of [Re.RLit "."; Re.RQuant Re.QPlus (Re.RIn [Re.CDigit])]))].

Definition unit_regex : Re.regex :=
  Re.seq_of [Re.RQuant Re.QPlus
               (Re.RIn [Re.CRange "a" "z"; Re.CChar "."; Re.CSpace])].

Definition volume_regex : Re.regex :=
  Re.seq_of [Re.RGroup (Some 1) number_regex;
             Re.RQuant Re.QStar (Re.RIn [Re.CSpace]);
             Re.RGroup (Some 2) unit_regex].

Definition contents_regex (number unit : string) : Re.regex :=
  Re.seq_of (Re.number_atoms number ++
             Re.RQuant Re.QStar (Re.RIn [Re.CSpace]) :: Re.lit_atoms unit).

(** The regex of the net-contents pattern for the input ["750 ml"]. *)
Definition r750 : Re.regex := Eval vm_compute in contents_regex "750" "ml".

(** The characters of the class [[a-z.\s]] of the volume pattern. *)
Definition is_unit_char (c : ascii) : bool :=
  Str.between 97 122 c || Ascii.eqb c "." || Str.isspace c.

(** The dict [_check_net_contents] returns when the form value has no
    number followed by a unit. *)
Definition unparsed_volume (net_contents : string) : field_result :=
  mkField false net_contents None
    (Some "Could not parse volume format from form input").

End VerificationService.

(** [try: body  except Exception as e: handler(e)] *)
Definition try_except {A : Type} (body : outcome A) (handler : exn -> outcome A)
  : outcome A :=
  match body with
  | Ok a => Ok a
  | Raise e => handler e
  end.

(** [str(e)] *)
Definition exn_str (e : exn) : string :=
  match e with
  | KeyError key => "'" +:+ key +:+ "'"
  | TypeError => "TypeError"
  | ReError => "re.error"
  | TesseractNotFoundError => "tesseract is not installed or it's not in your PATH"
  | OtherException msg => msg
  end.

(** ** ocr_service.py *)

Module OCRService.

(** The dict [extract_text_from_image] returns; [error = None] is the
    Python value [None]. *)
Record ocr_result : Type := mkOcr {
  success : bool;
  text : string;
  error : option string
}.

Section Extract.

(** The imaging library and the recognizer are external: each call
    either returns or raises. *)
Variables image enhancer : Type.
Variable os_path_exists : string -> bool.
Variable Image_open : string -> outcome image.
Variable convert : image -> string -> outcome image.
Variable Contrast : image -> outcome enhancer.
Variable enhance : enhancer -> nat -> outcome image.
Variable image_to_string : image -> string -> outcome string.

Definition _preprocess_image (img : image) : outcome image :=
  grayscale_image ← convert img "L";
  enh ← Contrast grayscale_image;
  enhance enh 2.

Definition extract_text_from_image (image_path : string) : outcome ocr_result :=
  if negb (os_path_exists image_path) then
    Ok (mkOcr false "" (Some ("Image file not found: " +:+ image_path)))
  else
    try_except
      (img ← Image_open image_path;
       processed_image ← _preprocess_image img;
       extracted_text ← image_to_string processed_image "eng";
       let extracted_text := Str.strip extracted_text in
       if negb (Str.truthy extracted_text) then
         Ok (mkOcr false ""
               (Some "No text could be extracted from the image. The image may be too blurry, too dark, or contain no text."))
       else
         Ok (mkOcr true extracted_text None))
      (fun e =>
         match e with
         | TesseractNotFoundError =>
             Ok (mkOcr false ""
                   (Some "Tesseract OCR is not installed. Please install it: sudo apt-get install tesseract-ocr"))
         | _ =>
             Ok (mkOcr false "" (Some ("Error processing image: " +:+ exn_str e)))
         end).

(** What the recognizer returns for the file, before trimming. *)
Definition recognized (image_path : string) : outcome string :=
  img ← Image_open image_path;
  processed_image ← _preprocess_image img;
  image_to_string processed_image "eng".

End Extract.

End OCRService.

(** ** app.py *)

Module App.

(** An uploaded file ([werkzeug.FileStorage]). *)
Record upload : Type := mkUpload {
  filename : string;
  content : string
}.

Record request : Type := mkRequest {
  files : gmap string upload;
  form : gmap string string
}.

(** The JSON body of a response. *)
Inductive body : Type :=
| ErrorBody (error : option string)
| VerifyBody (overall_match : bool)
    (details : gmap string VerificationService.field_result)
    (ocr_text : string).

Definition response : Type := (body * nat)%type.

(** The files that exist, by path. *)
Definition filesystem : Type := gset string.

(** [app.config['MAX_CONTENT_LENGTH']], in bytes. *)
Definition MAX_CONTENT_LENGTH : N := 16 * 1024 * 1024.

(** [ALLOWED_EXTENSIONS] is a Python set: the list gives its members, in
    one of the orders in which [', '.join] may meet them.  Membership is
    all that [allowed_file] asks of it. *)
Definition ALLOWED_EXTENSIONS : list string := ["png"; "jpg"; "jpeg"; "gif"].

(** [sep.join(parts)] *)
Fixpoint join (sep : string) (parts : list string) : string :=
  match parts with
  | [] => ""
  | [p] => p
  | p :: parts' => p +:+ sep +:+ join sep parts'
  end.

(** [s.rsplit(sep, 1)[1]]: what follows the last [sep], if there is one. *)
Fixpoint after_last (sep : ascii) (s : string) : option string :=
  match s with
  | EmptyString => None
  | String c s' =>
      match after_last sep s' with
      | Some t => Some t
      | None => if Ascii.eqb c sep then Some s' else None
      end
  end.

Definition allowed_file (fname : string) : bool :=
  Str.contains "." fname &&
  match after_last "." fname with
  | Some ext => existsb (String.eqb (Str.lower ext)) ALLOWED_EXTENSIONS
  | None => false
  end.

(** [os.path.join(a, b)] on POSIX. *)
Definition os_path_join (a b : string) : string :=
  if Str.startswith "/" b then b
  else if negb (Str.truthy a) || Str.startswith "/" (String.rev a) then a +:+ b
  else a +:+ "/" +:+ b.

Definition os_path_exists (path : string) (fs : filesystem) : bool :=
  bool_decide (path ∈ fs).

(** [os.remove(path)] of a path that, when it exists, is a file the process
    may delete: the call raises for a missing path only (not for a
    directory, nor for want of permission). *)
Definition os_remove (path : string) (fs : filesystem) : outcome unit * filesystem :=
  if os_path_exists path fs then (Ok tt, fs ∖ {[path]})
  else (Raise (OtherException "No such file or directory"), fs).

Definition required_fields : list string := ["brand_name"; "product_type"; "abv"].

(** [request.form.get(key, '').strip()] *)
Definition form_strip (req : request) (key : string) : string :=
  Str.strip (VerificationService.get_default (form req) key).

Section Handler.

Variables image enhancer : Type.
Variable Image_open : string -> outcome image.
Variable convert : image -> string -> outcome image.
Variable Contrast : image -> outcome enhancer.
Variable enhance : enhancer -> nat -> outcome image.
Variable image_to_string : image -> string -> outcome string.
Variable secure_filename : string -> string.
Variable gettempdir : string.
(** [file.save(path)]: returns or raises, and leaves the file system in
    some state either way. *)
Variable file_save : upload -> string -> filesystem -> outcome unit * filesystem.

Definition extract_text_from_image (fs : filesystem) (image_path : string)
  : outcome OCRService.ocr_result :=
  OCRService.extract_text_from_image image enhancer
    (fun p => os_path_exists p fs) Image_open convert Contrast enhance
    image_to_string image_path.

(** [if os.path.exists(p): os.remove(p)] *)
Definition cleanup (temp_filepath : string) (fs : filesystem)
  : outcome unit * filesystem :=
  if os_path_exists temp_filepath fs then os_remove temp_filepath fs
  else (Ok tt, fs).

(** The body of the [try] block of [verify]. *)
Definition verify_try (file : upload) (form_data : gmap string string)
    (temp_filepath : string) (fs : filesystem) : outcome response * filesystem :=
  match file_save file temp_filepath fs with
  | (Raise e, fs1) => (Raise e, fs1)
  | (Ok _, fs1) =>
      match extract_text_from_image fs1 temp_filepath with
      | Raise e => (Raise e, fs1)
      | Ok ocr_result =>
          if negb (OCRService.success ocr_result) then
            (Ok (ErrorBody (OCRService.error ocr_result), 500), fs1)
          else
            match VerificationService.verify_label form_data
                    (OCRService.text ocr_result) with
            | Raise e => (Raise e, fs1)
            | Ok verification_result =>
                match cleanup temp_filepath fs1 with
                | (Raise e, fs2) => (Raise e, fs2)
                | (Ok _, fs2) =>
                    (Ok (VerifyBody
                           (VerificationService.overall_match verification_result)
                           (VerificationService.details verification_result)
                           (VerificationService.ocr_text verification_result),
                         200), fs2)
                end
            end
      end
  end.

(** The handler of [POST /verify]: the response, or the exception that
    leaves the handler, and the file system afterwards. *)
Definition verify (req : request) (fs : filesystem)
  : outcome response * filesystem :=
  match files req !! "image" with
  | None =>
      (Ok (ErrorBody (Some "No image file provided. Please upload an image of the alcohol label."),
           400), fs)
  | Some file =>
      if negb (Str.truthy (filename file)) then
        (Ok (ErrorBody (Some "No file selected. Please choose an image file."), 400), fs)
      else if negb (allowed_file (filename file)) then
        (Ok (ErrorBody (Some ("Invalid file type. Allowed types: "
                              +:+ join ", " ALLOWED_EXTENSIONS)), 400), fs)
      else
        let form_data : gmap string string :=
          <["net_contents" := form_strip req "net_contents"]>
            (<["abv" := form_strip req "abv"]>
               (<["product_type" := form_strip req "product_type"]>
                  (<["brand_name" := form_strip req "brand_name"]> ∅))) in
        let missing_fields :=
          List.filter (fun field =>
                         negb (Str.truthy (VerificationService.get_default form_data field)))
                      required_fields in
        match missing_fields with
        | _ :: _ =>
            (Ok (ErrorBody (Some ("Missing required fields: "
                                  +:+ join ", " missing_fields)), 400), fs)
        | [] =>
            let temp_filepath :=
              os_path_join gettempdir (secure_filename (filename file)) in
            match verify_try file form_data temp_filepath fs with
            | (Ok resp, fs') => (Ok resp, fs')
            | (Raise e, fs1) =>
                match cleanup temp_filepath fs1 with
                | (Raise e', fs2) => (Raise e', fs2)
                | (Ok _, fs2) =>
                    (Ok (ErrorBody (Some ("Server error: " +:+ exn_str e)), 500), fs2)
                end
            end
        end
  end.

(** The answer of the handler registered for status 413. *)
Definition file_too_large : response :=
  (ErrorBody (Some "File too large. Maximum size is 16 MB."), 413).

(** [POST /verify] as Flask serves it.  The first use of [request.files]
    in [verify] parses the request body, and that raises
    [RequestEntityTooLarge] (status 413) when the body is longer than
    [MAX_CONTENT_LENGTH]; Flask answers it with [file_too_large].  Nothing
    of [verify] has run by then.  Any other exception that leaves [verify]
    is passed on. *)
Definition post_verify (content_length : N) (req : request) (fs : filesystem)
  : outcome response * filesystem :=
  if (MAX_CONTENT_LENGTH <? content_length)%N then (Ok file_too_large, fs)
  else verify req fs.

End Handler.

(** A world in which every library call succeeds and the recognizer reads
    [seen] off any image; saving an upload creates the file. *)
Definition reads (seen : string) (req : request) (fs : filesystem)
  : outcome response * filesystem :=
  verify unit unit
    (fun _ => Ok tt) (fun img _ => Ok img) (fun img => Ok img) (fun enh _ => Ok enh)
    (fun _ _ => Ok seen)
    (fun name => name) "/tmp"
    (fun _ path fs => (Ok tt, {[path]} ∪ fs))
    req fs.

(** The form of the specification's end-to-end example, which has no net
    contents, and a request that carries it. *)
Definition label_fields : gmap string string :=
  <["brand_name" := "Old Tom Distillery"]>
    (<["product_type" := "Bourbon"]> {[ "abv" := "45" ]}).

Definition label_request : request :=
  mkRequest {[ "image" := mkUpload "label.png" "" ]} label_fields.

(** What [verify] asks of a request before it saves the upload: an image
    part with a non-empty, allowed file name, and the three required form
    fields not blank. *)
Definition acceptable (req : request) : bool :=
  match files req !! "image" with
  | None => false
  | Some file =>
      Str.truthy (filename file) && allowed_file (filename file)
      && Str.truthy (form_strip req "brand_name")
      && Str.truthy (form_strip req "product_type")
      && Str.truthy (form_strip req "abv")
  end.

(** The form fields as [verify] hands them to [verify_label]. *)
Definition form_data_of (req : request) : gmap string string :=
  <["net_contents" := form_strip req "net_contents"]>
    (<["abv" := form_strip req "abv"]>
       (<["product_type" := form_strip req "product_type"]>
          (<["brand_name" := form_strip req "brand_name"]> ∅))).

End App.

(** * Properties *)

(** ** Strings *)

Module StrFacts.
Import Str.

Ltac each_char c :=
  destruct c as [[] [] [] [] [] [] [] []]; vm_compute; try reflexivity; try discriminate.

Lemma append_nil_r (s : string) : s +:+ "" = s.
Proof. induction s as [|c s IH]; simpl; [reflexivity | now rewrite IH]. Qed.

Lemma append_assoc (a b c : string) : (a +:+ b) +:+ c = a +:+ b +:+ c.
Proof. induction a as [|x a IH]; simpl; [reflexivity | now rewrite IH]. Qed.

Lemma startswith_spec (p s : string) :
  startswith p s = true <-> exists post, s = p +:+ post.
Proof.
  revert s; induction p as [|a p IH]; intros s; simpl.
  - split; [intros _; now exists s | reflexivity].
  - destruct s as [|b s].
    + split; [discriminate | intros [post H]; discriminate].
    + rewrite andb_true_iff, IH. split.
      * intros [Hab [post ->]]. apply Ascii.eqb_eq in Hab as ->. now exists post.
      * intros [post H]. injection H as -> ->. split; [apply Ascii.eqb_refl | now exists post].
Qed.

Lemma contains_spec (sub s : string) :
  contains sub s = true <-> substring_of sub s.
Proof.
  unfold substring_of. induction s as [|c s IH].
  - simpl. rewrite orb_false_r, startswith_spec. split.
    + intros [post H]. now exists "", post.
    + intros [[|x pre] [post H]]; [now exists post | discriminate].
  - cbn [contains]. rewrite orb_true_iff, startswith_spec, IH. split.
    + intros [[post H] | [pre [post H]]].
      * now exists "", post.
      * exists (String c pre), post. simpl. now rewrite H.
    + intros [[|x pre] [post H]].
      * left. now exists post.
      * right. injection H as -> ->. now exists pre, post.
Qed.

Lemma substring_of_refl (s : string) : substring_of s s.
Proof. exists "", "". symmetry. apply append_nil_r. Qed.

Lemma substring_of_trans (a b c : string) :
  substring_of a b -> substring_of b c -> substring_of a c.
Proof.
  intros [p1 [q1 ->]] [p2 [q2 ->]].
  exists (p2 +:+ p1), (q1 +:+ q2). now rewrite !append_assoc.
Qed.

Lemma substring_of_empty (s : string) : substring_of "" s.
Proof. now exists "", s. Qed.

(** *** [strip] *)

Lemma lstrip_suffix (s : string) : exists w, s = w +:+ lstrip s.
Proof.
  induction s as [|c s [w IH]]; simpl.
  - now exists "".
  - destruct (isspace c).
    + exists (String c w). simpl. now rewrite <- IH.
    + now exists "".
Qed.

Lemma rstrip_prefix (s : string) : exists w, s = rstrip s +:+ w.
Proof.
  induction s as [|c s [w IH]]; simpl.
  - now exists "".
  - destruct (rstrip s) as [|d r] eqn:E.
    + destruct (isspace c).
      * exists (String c s). reflexivity.
      * exists w. simpl in *. now rewrite <- IH.
    + exists w. simpl in *. now rewrite <- IH.
Qed.

Lemma strip_substring (s : string) : substring_of (strip s) s.
Proof.
  unfold strip. destruct (lstrip_suffix s) as [w1 H1].
  destruct (rstrip_prefix (lstrip s)) as [w2 H2].
  exists w1, w2. now rewrite <- H2, <- H1.
Qed.

Lemma lstrip_head (s : string) :
  lstrip s = "" \/ exists c s', lstrip s = String c s' /\ isspace c = false.
Proof.
  induction s as [|c s IH]; simpl; [now left|].
  destruct (isspace c) eqn:E; [exact IH | right; now exists c, s].
Qed.

Lemma rstrip_head (c : ascii) (s : string) :
  isspace c = false -> exists r, rstrip (String c s) = String c r.
Proof.
  intros H. simpl. destruct (rstrip s); [rewrite H|]; eauto.
Qed.

Lemma strip_head (s : string) :
  strip s = "" \/ exists c s', strip s = String c s' /\ isspace c = false.
Proof.
  unfold strip. destruct (lstrip_head s) as [-> | [c [s' [-> Hc]]]]; [now left|].
  right. destruct (rstrip_head c s' Hc) as [r Hr]. now exists c, r.
Qed.

Lemma rstrip_idem (s : string) : rstrip (rstrip s) = rstrip s.
Proof.
  induction s as [|c s IH]; simpl; [reflexivity|].
  destruct (rstrip s) as [|d r] eqn:E.
  - destruct (isspace c) eqn:Hc; simpl; [reflexivity | now rewrite Hc].
  - cbn [rstrip] in *. now rewrite IH.
Qed.

Lemma rstrip_app (y q : string) :
  rstrip (y +:+ q) = match rstrip q with "" => rstrip y | r => y +:+ r end.
Proof.
  induction y as [|c y IH]; simpl.
  - now destruct (rstrip q).
  - rewrite IH. destruct (rstrip q) as [|d r]; [reflexivity|].
    now destruct y.
Qed.

Lemma lstrip_app (p : string) (c : ascii) (x : string) :
  isspace c = false -> lstrip (p +:+ String c x) = lstrip p +:+ String c x.
Proof.
  intros Hc. induction p as [|d p IH]; simpl; [now rewrite Hc|].
  destruct (isspace d); [exact IH | reflexivity].
Qed.

(** Stripping both strings keeps an occurrence. *)
Lemma substring_of_strip (b t : string) :
  substring_of b t -> substring_of (strip b) (strip t).
Proof.
  intros Hbt.
  assert (Hu : substring_of (strip b) t)
    by (eapply substring_of_trans; [apply strip_substring | exact Hbt]).
  destruct (strip_head b) as [-> | [c [u' [Eu Hc]]]]; [apply substring_of_empty|].
  assert (Hr : rstrip (strip b) = strip b) by apply rstrip_idem.
  rewrite Eu in *. destruct Hu as [p [q ->]].
  unfold strip at 1. simpl. rewrite (lstrip_app p c (u' +:+ q) Hc).
  change (String c (u' +:+ q)) with (String c u' +:+ q).
  rewrite <- append_assoc, rstrip_app, rstrip_app, Hr.
  destruct (rstrip q) as [|d r].
  - exists (lstrip p), "". now rewrite append_nil_r.
  - exists (lstrip p), (String d r). now rewrite append_assoc.
Qed.

Lemma isspace_lower_char (c : ascii) : isspace (lower_char c) = isspace c.
Proof. each_char c. Qed.

Lemma lstrip_lower (s : string) : lstrip (lower s) = lower (lstrip s).
Proof.
  induction s as [|c s IH]; simpl; [reflexivity|].
  rewrite isspace_lower_char. now destruct (isspace c).
Qed.

Lemma rstrip_lower (s : string) : rstrip (lower s) = lower (rstrip s).
Proof.
  induction s as [|c s IH]; simpl; [reflexivity|].
  rewrite IH, isspace_lower_char.
  destruct (rstrip s); simpl; [now destruct (isspace c) | reflexivity].
Qed.

Lemma strip_lower (s : string) : strip (lower s) = lower (strip s).
Proof. unfold strip. now rewrite lstrip_lower, rstrip_lower. Qed.

End StrFacts.

(** ** Compiling the patterns *)

Module ReFacts.
Import Re.

Lemma prun_app (a b : string) (st : pstate) :
  prun st (a +:+ b) = st' ← prun st a; prun st' b.
Proof.
  revert st; induction a as [|c a IH]; intros st; simpl; [reflexivity|].
  destruct (pstep st c) as [st'|]; simpl; [apply IH | reflexivity].
Qed.

Lemma special_escape_atom (c : ascii) :
  special c = true -> escape_atom c = Some (RLit c).
Proof. StrFacts.each_char c. Qed.

Lemma plain_normal_kind (c : ascii) :
  special c = false -> normal_kind c = NLit.
Proof. StrFacts.each_char c. Qed.

Lemma digit_or_dot_kind (c : ascii) :
  digit_or_dot c = true ->
  normal_kind c = if Ascii.eqb c "." then NDot else NLit.
Proof. StrFacts.each_char c. Qed.

Lemma pstep_plain (c : ascii) items stack next :
  special c = false ->
  pstep (mkP PNormal items stack next) c
  = Some (mkP PNormal (RLit c :: items) stack next).
Proof.
  intros H. unfold pstep, normal_step. cbn [p_mode].
  now rewrite (plain_normal_kind c H).
Qed.

Lemma pstep_backslash items stack next :
  pstep (mkP PNormal items stack next) "\" = Some (mkP PEsc items stack next).
Proof. reflexivity. Qed.

Lemma pstep_escaped (c : ascii) items stack next :
  special c = true ->
  pstep (mkP PEsc items stack next) c
  = Some (mkP PNormal (RLit c :: items) stack next).
Proof.
  intros H. unfold pstep. cbn [p_mode]. now rewrite (special_escape_atom c H).
Qed.

Lemma pstep_number (c : ascii) items stack next :
  digit_or_dot c = true ->
  pstep (mkP PNormal items stack next) c
  = Some (mkP PNormal (number_atom c :: items) stack next).
Proof.
  intros H. unfold pstep, normal_step, number_atom. cbn [p_mode].
  rewrite (digit_or_dot_kind c H). now destruct (Ascii.eqb c ".").
Qed.

Lemma bind_some {A B : Type} (x : A) (f : A -> option B) : Some x ≫= f = f x.
Proof. reflexivity. Qed.

(** Reading an escaped string adds its characters as literals. *)
Lemma prun_escape (s : string) (items : list regex) stack next :
  prun (mkP PNormal items stack next) (escape s)
  = Some (mkP PNormal (rev (lit_atoms s) ++ items) stack next).
Proof.
  revert items; induction s as [|c s IH]; intros items; [reflexivity|].
  cbn [escape]. unfold lit_atoms. cbn [list_ascii_of_string map rev].
  rewrite <- app_assoc. cbn [app].
  destruct (special c) eqn:Hc; cbn [prun].
  - rewrite pstep_backslash, bind_some, (pstep_escaped c _ _ _ Hc), bind_some.
    apply IH.
  - rewrite (pstep_plain c _ _ _ Hc), bind_some. apply IH.
Qed.

(** Reading a number adds its digits as literals and its dots as [.]. *)
Lemma prun_number (s : string) (items : list regex) stack next :
  Str.all digit_or_dot s = true ->
  prun (mkP PNormal items stack next) s
  = Some (mkP PNormal (rev (number_atoms s) ++ items) stack next).
Proof.
  revert items; induction s as [|c s IH]; intros items H; [reflexivity|].
  cbn [Str.all] in H. apply andb_true_iff in H as [Hc Hs].
  unfold number_atoms. cbn [list_ascii_of_string map rev prun].
  rewrite <- app_assoc. cbn [app].
  rewrite (pstep_number c _ _ _ Hc), bind_some. now apply IH.
Qed.

Lemma seq_of_app (a b : list regex) :
  seq_of (a ++ b) = foldr RSeq (seq_of b) a.
Proof. unfold seq_of. now rewrite foldr_app. Qed.

Lemma compile_abv_pattern (abv : string) :
  compile (VerificationService.abv_pattern abv)
  = Some (VerificationService.abv_regex abv).
Proof.
  unfold compile, VerificationService.abv_pattern, VerificationService.abv_regex.
  change ("\b" +:+ escape (VerificationService.abv_clean abv) +:+ "(?:\.0)?\s*%")
    with (String "\" (String "b" (escape (VerificationService.abv_clean abv) +:+ "(?:\.0)?\s*%"))).
  cbn [prun]. rewrite pstep_backslash, bind_some.
  change (pstep (mkP PEsc [] [] 1) "b") with (Some (mkP PNormal [RWordB] [] 1)).
  rewrite bind_some, prun_app, prun_escape, bind_some.
  set (its := (rev (lit_atoms (VerificationService.abv_clean abv)) ++ [RWordB])%list).
  change (prun (mkP PNormal its [] 1) "(?:\.0)?\s*%")
    with (Some (mkP PNormal
                  (RLit "%" :: RQuant QStar (RIn [CSpace])
                   :: RQuant QOpt (RGroup None (seq_of [RLit "."; RLit "0"])) :: its)
                  [] 1)).
  rewrite bind_some. unfold pfinish. cbn [p_mode p_stack p_items rev].
  subst its. rewrite rev_app_distr, rev_involutive. cbn [rev app].
  now rewrite <- !app_assoc.
Qed.

Lemma compile_volume_pattern :
  compile VerificationService.volume_pattern = Some VerificationService.volume_regex.
Proof. reflexivity. Qed.

Lemma compile_contents_pattern (number unit : string) :
  Str.all digit_or_dot number = true ->
  compile (VerificationService.contents_pattern number unit)
  = Some (VerificationService.contents_regex number unit).
Proof.
  intros H. unfold compile, VerificationService.contents_pattern,
    VerificationService.contents_regex.
  rewrite prun_app, (prun_number _ _ _ _ H), bind_some.
  change ("\s*" +:+ escape unit) with (String "\" (String "s" (String "*" (escape unit)))).
  cbn [prun]. rewrite pstep_backslash, bind_some.
  set (its := (rev (number_atoms number) ++ [])%list).
  change (pstep (mkP PEsc its [] 1) "s") with (Some (mkP PNormal (RIn [CSpace] :: its) [] 1)).
  rewrite bind_some.
  change (pstep (mkP PNormal (RIn [CSpace] :: its) [] 1) "*")
    with (Some (mkP PNormal (RQuant QStar (RIn [CSpace]) :: its) [] 1)).
  rewrite bind_some, prun_escape, bind_some. unfold pfinish. cbn [p_mode p_stack p_items].
  subst its. rewrite app_nil_r, rev_app_distr, rev_involutive. cbn [rev].
  now rewrite rev_involutive, <- app_assoc.
Qed.

End ReFacts.

(** ** The matcher against the relation [matches] *)

Module MatchFacts.
Import Re.

Lemma star_sound (ic : bool) (r : regex) :
  (forall k st res, mtch ic r k st = Some res ->
     exists st', matches ic r st st' /\ k st' = Some res) ->
  forall fuel k st res, star (mtch ic r) fuel k st = Some res ->
    exists st', matches ic (RQuant QStar r) st st' /\ k st' = Some res.
Proof.
  intros IHr fuel. induction fuel as [|fuel IHf]; intros k st res H; cbn [star] in H.
  - exists st. split; [apply M_Star_nil | exact H].
  - match type of H with
    | match ?body with _ => _ end = _ => destruct body as [res'|] eqn:E
    end.
    + injection H as ->. apply IHr in E as [st1 [M1 K1]].
      destruct (_ <? _)%nat; [|discriminate].
      apply IHf in K1 as [st2 [M2 K2]].
      exists st2. split; [eapply M_Star_cons; eassumption | exact K2].
    + exists st. split; [apply M_Star_nil | exact H].
Qed.

(** Every success of the matcher is a match in the sense of [matches]. *)
Lemma mtch_sound (ic : bool) (r : regex) :
  forall k st res, mtch ic r k st = Some res ->
    exists st', matches ic r st st' /\ k st' = Some res.
Proof.
  induction r as [|c| |items| |r1 IH1 r2 IH2|cap r IH|q r IH]; intros k st res H;
    cbn [mtch] in H.
  - exists st. split; [apply M_Eps | exact H].
  - destruct (m_rest st) as [|d s'] eqn:E; [discriminate|].
    destruct (accepts ic (RLit c) d) eqn:A; [|discriminate].
    exists (advance d s' st). split; [now apply M_Char | exact H].
  - destruct (m_rest st) as [|d s'] eqn:E; [discriminate|].
    destruct (accepts ic RAny d) eqn:A; [|discriminate].
    exists (advance d s' st). split; [now apply M_Char | exact H].
  - destruct (m_rest st) as [|d s'] eqn:E; [discriminate|].
    destruct (accepts ic (RIn items) d) eqn:A; [|discriminate].
    exists (advance d s' st). split; [now apply M_Char | exact H].
  - destruct (xorb _ _) eqn:E; [|discriminate].
    exists st. split; [now apply M_WordB | exact H].
  - apply IH1 in H as [st1 [M1 H]]. apply IH2 in H as [st2 [M2 H]].
    exists st2. split; [eapply M_Seq; eassumption | exact H].
  - apply IH in H as [st1 [M1 H]].
    exists (set_group cap (captured st st1) st1). split; [now apply M_Group | exact H].
  - destruct q.
    + now apply (star_sound ic r IH) in H.
    + apply IH in H as [st1 [M1 H]].
      apply (star_sound ic r IH) in H as [st2 [M2 H]].
      exists st2. split; [eapply M_Plus; eassumption | exact H].
    + destruct (mtch ic r k st) as [res'|] eqn:E.
      * injection H as ->. apply IH in E as [st1 [M1 K1]].
        exists st1. split; [now apply M_Opt_some | exact K1].
      * exists st. split; [apply M_Opt_none | exact H].
Qed.

Lemma in_all_chars (d : ascii) : In d all_chars.
Proof.
  unfold all_chars. rewrite <- (ascii_nat_embedding d).
  apply in_map, in_seq. pose proof (nat_ascii_bounded d). lia.
Qed.

Lemma set_group_taken cap t st : m_taken (set_group cap t st) = m_taken st.
Proof. now destruct cap. Qed.

(** What a match consumes is added in front of [m_taken], and consists of
    characters the regex accepts. *)
Lemma matches_taken (ic : bool) (P : ascii -> bool) r st st' :
  matches ic r st st' -> only P ic r = true ->
  exists w, m_taken st' = (w ++ m_taken st)%list /\ List.Forall (fun d => P d = true) w.
Proof.
  induction 1 as [st|r d s' st E A|st E|r1 r2 st st1 st2 _ IH1 _ IH2
                 |cap r st st' _ IH|r st st' _ IH|r st|r st
                 |r st st1 st2 _ IH1 _ IH2|r st st1 st2 _ IH1 _ IH2]; intros O.
  - exists []. split; [reflexivity | constructor].
  - exists [d]. split; [reflexivity|]. constructor; [|constructor].
    assert (L : forallb (fun d => implb (accepts ic r d) (P d)) all_chars = true)
      by (destruct r; cbn [accepts] in A; try discriminate; exact O).
    rewrite forallb_forall in L. specialize (L d (in_all_chars d)).
    rewrite A in L. exact L.
  - exists []. split; [reflexivity | constructor].
  - cbn [only] in O. apply andb_true_iff in O as [O1 O2].
    destruct (IH1 O1) as [w1 [E1 F1]]. destruct (IH2 O2) as [w2 [E2 F2]].
    exists (w2 ++ w1)%list. split; [now rewrite E2, E1, app_assoc | now apply Forall_app].
  - rewrite set_group_taken. now apply IH.
  - now apply IH.
  - exists []. split; [reflexivity | constructor].
  - exists []. split; [reflexivity | constructor].
  - cbn [only] in O. destruct (IH1 O) as [w1 [E1 F1]]. destruct (IH2 O) as [w2 [E2 F2]].
    exists (w2 ++ w1)%list. split; [now rewrite E2, E1, app_assoc | now apply Forall_app].
  - cbn [only] in O. destruct (IH1 O) as [w1 [E1 F1]]. destruct (IH2 O) as [w2 [E2 F2]].
    exists (w2 ++ w1)%list. split; [now rewrite E2, E1, app_assoc | now apply Forall_app].
Qed.

(** A regex without capturing groups leaves the groups alone. *)
Lemma matches_groups (ic : bool) r st st' :
  matches ic r st st' -> nocap r = true -> m_groups st' = m_groups st.
Proof.
  induction 1 as [st|r d s' st E A|st E|r1 r2 st st1 st2 _ IH1 _ IH2
                 |cap r st st' _ IH|r st st' _ IH|r st|r st
                 |r st st1 st2 _ IH1 _ IH2|r st st1 st2 _ IH1 _ IH2]; intros N;
    try reflexivity.
  - cbn [nocap] in N. apply andb_true_iff in N as [N1 N2].
    now rewrite (IH2 N2), (IH1 N1).
  - destruct cap; [discriminate|]. now apply IH.
  - now apply IH.
  - cbn [nocap] in N. now rewrite (IH2 N), (IH1 N).
  - cbn [nocap] in N. now rewrite (IH2 N), (IH1 N).
Qed.

Ltac not_a_char :=
  match goal with
  | H : accepts _ _ _ = true |- _ => cbn [accepts] in H; discriminate H
  end.

Lemma matches_seq_inv ic r1 r2 st st' :
  matches ic (RSeq r1 r2) st st' ->
  exists st1, matches ic r1 st st1 /\ matches ic r2 st1 st'.
Proof. inversion 1; subst; [not_a_char | eauto]. Qed.

Lemma matches_group_inv ic cap r st st' :
  matches ic (RGroup cap r) st st' ->
  exists st1, matches ic r st st1 /\ st' = set_group cap (captured st st1) st1.
Proof. inversion 1; subst; [not_a_char | eauto]. Qed.

Lemma matches_eps_inv ic st st' : matches ic REps st st' -> st' = st.
Proof. inversion 1; subst; [reflexivity | not_a_char]. Qed.

Lemma captured_app (st st' : mstate) (w : list ascii) :
  m_taken st' = (w ++ m_taken st)%list ->
  captured st st' = string_of_list_ascii (rev w).
Proof.
  intros E. unfold captured. rewrite E, length_app, Nat.add_sub.
  now rewrite take_app_length.
Qed.

Lemma all_of_list (P : ascii -> bool) (l : list ascii) :
  List.Forall (fun d => P d = true) l -> Str.all P (string_of_list_ascii l) = true.
Proof.
  induction 1 as [|d l Hd _ IH]; [reflexivity|]. cbn. now rewrite Hd, IH.
Qed.

(** A match of the volume pattern sets both groups, and group 1 is made
    of digits and dots. *)
Lemma volume_groups (st st' : mstate) :
  m_groups st = [] ->
  matches false VerificationService.volume_regex st st' ->
  exists number unit_raw,
    m_groups st' = [(2, unit_raw); (1, number)]
    /\ Str.all digit_or_dot number = true.
Proof.
  intros G0 M. unfold VerificationService.volume_regex in M. cbn [seq_of foldr] in M.
  apply matches_seq_inv in M as [st1 [M1 M]].
  apply matches_seq_inv in M as [st2 [M2 M]].
  apply matches_seq_inv in M as [st3 [M3 M]].
  apply matches_eps_inv in M as ->.
  apply matches_group_inv in M1 as [sa [Ma ->]].
  apply matches_group_inv in M3 as [sb [Mb ->]].
  destruct (matches_taken false digit_or_dot _ _ _ Ma eq_refl) as [w [Ew Fw]].
  pose proof (matches_groups _ _ _ _ Ma eq_refl) as Ga.
  pose proof (matches_groups _ _ _ _ M2 eq_refl) as G2.
  pose proof (matches_groups _ _ _ _ Mb eq_refl) as Gb.
  exists (captured st sa), (captured st2 sb). split.
  - cbn [set_group m_groups] in *. now rewrite Gb, G2, Ga, G0.
  - rewrite (captured_app _ _ _ Ew). apply all_of_list, Forall_rev, Fw.
Qed.

Lemma scan_some ic r s : forall prev m,
  scan ic r prev s = Some m -> exists prev' s', attempt ic r prev' s' = Some m.
Proof.
  induction s as [|c s IH]; intros prev m H; cbn [scan] in H;
    destruct (attempt ic r prev _) as [m'|] eqn:E.
  - injection H as ->. eauto.
  - discriminate.
  - injection H as ->. eauto.
  - eapply IH, H.
Qed.

Lemma scan_volume (prev : option ascii) (text : string) (vm : match_obj) :
  scan false VerificationService.volume_regex prev text = Some vm ->
  exists number unit_raw,
    group vm 1 = Some number /\ group vm 2 = Some unit_raw
    /\ Str.all digit_or_dot number = true.
Proof.
  intros H. apply scan_some in H as [prev' [s H]].
  unfold attempt in H.
  destruct (mtch false _ Some _) as [st|] eqn:E; [|discriminate].
  cbn in H. injection H as <-.
  apply mtch_sound in E as [st' [M K]]. injection K as ->.
  apply volume_groups in M as [number [unit_raw [G A]]]; [|reflexivity].
  exists number, unit_raw. unfold group. cbn [groups]. rewrite G. now split.
Qed.

End MatchFacts.

(** ** The field checks return, and what they return *)

Module CheckFacts.
Import VerificationService.

Lemma search_abv (abv text : string) :
  Re.search (abv_pattern abv) text false
  = Ok (Re.scan false (abv_regex abv) None text).
Proof. unfold Re.search. now rewrite ReFacts.compile_abv_pattern. Qed.

Lemma search_volume_eq (text : string) :
  Re.search volume_pattern text false = Ok (Re.scan false volume_regex None text).
Proof. unfold Re.search. now rewrite ReFacts.compile_volume_pattern. Qed.

Lemma search_contents (number unit text : string) :
  Str.all Re.digit_or_dot number = true ->
  Re.search (contents_pattern number unit) text true
  = Ok (Re.scan true (contents_regex number unit) None text).
Proof. intros H. unfold Re.search. now rewrite ReFacts.compile_contents_pattern. Qed.

Lemma bind_ok {A B : Type} (a : A) (f : A -> outcome B) : Ok a ≫= f = f a.
Proof. reflexivity. Qed.

Lemma invariant_hit (e f : string) : result_invariant (mkField true e (Some f) None).
Proof. repeat split; intros H; try discriminate; now elim H. Qed.

Lemma invariant_miss (e msg : string) : result_invariant (mkField false e None (Some msg)).
Proof. repeat split; intros H; try discriminate; now elim H. Qed.

Create HintDb checks.
#[local] Hint Resolve invariant_hit invariant_miss : checks.

Ltac returned := eexists; split; [reflexivity | auto with checks].

Lemma _check_brand_name_invariant (brand_name ocr : string) :
  result_invariant (_check_brand_name brand_name ocr).
Proof.
  unfold _check_brand_name.
  destruct (negb _); [auto with checks|]. destruct (Str.contains _ _); auto with checks.
Qed.

Lemma _check_product_type_invariant (product_type ocr : string) :
  result_invariant (_check_product_type product_type ocr).
Proof.
  unfold _check_product_type.
  destruct (negb _); [auto with checks|]. destruct (Str.contains _ _); auto with checks.
Qed.

Lemma _check_government_warning_invariant (ocr : string) :
  result_invariant (_check_government_warning ocr).
Proof.
  unfold _check_government_warning. destruct (Str.contains _ _); auto with checks.
Qed.

(** [_check_abv] never raises. *)
Lemma _check_abv_returns (abv ocr : string) :
  exists r, _check_abv abv ocr = Ok r /\ result_invariant r.
Proof.
  unfold _check_abv. destruct (negb _); [returned|].
  rewrite search_abv, bind_ok.
  destruct (Re.scan _ _ _ _); returned.
Qed.

(** [_check_net_contents] never raises: the pattern it builds from the
    parsed number and unit always compiles. *)
Lemma _check_net_contents_returns (net_contents ocr : string) :
  exists r, _check_net_contents net_contents ocr = Ok r /\ result_invariant r.
Proof.
  unfold _check_net_contents. destruct (negb _); [returned|].
  rewrite search_volume_eq, bind_ok.
  destruct (Re.scan false volume_regex None _) as [vm|] eqn:E; [|returned].
  destruct (MatchFacts.scan_volume _ _ _ E) as [number [unit_raw [G1 [G2 A]]]].
  unfold group_str. rewrite G1, G2, !bind_ok.
  rewrite (search_contents _ _ _ A), bind_ok.
  destruct (Re.scan true _ _ _); returned.
Qed.

Lemma required_loop_all (details : gmap string field_result) (b p a : field_result) :
  details !! "brand_name" = Some b ->
  details !! "product_type" = Some p ->
  details !! "abv" = Some a ->
  required_loop details required_fields true
  = Ok (match_ b && match_ p && match_ a).
Proof.
  intros Hb Hp Ha. unfold required_fields. cbn [required_loop].
  rewrite Hb, Hp, Ha. now destruct (match_ b), (match_ p), (match_ a).
Qed.

(** [verify_label] never raises; its result in closed form.  [nc] is the
    net-contents check, made only when the form has a non-empty value. *)
Lemma verify_label_returns (form_data : gmap string string) (ocr_text : string) :
  let n := _normalize_text ocr_text in
  let b := _check_brand_name (get_default form_data "brand_name") n in
  let p := _check_product_type (get_default form_data "product_type") n in
  let g := _check_government_warning n in
  exists a nc,
    _check_abv (get_default form_data "abv") n = Ok a
    /\ _check_net_contents (get_default form_data "net_contents") n = Ok nc
    /\ verify_label form_data ocr_text
       = Ok (mkVerify (match_ b && match_ p && match_ a)
               (<["government_warning" := g]>
                  ((if get_truthy form_data "net_contents"
                    then <["net_contents" := nc]> else id)
                     (<["abv" := a]> (<["product_type" := p]> (<["brand_name" := b]> ∅)))))
               ocr_text).
Proof.
  intros n b p g.
  destruct (_check_abv_returns (get_default form_data "abv") n) as [a [Ha _]].
  destruct (_check_net_contents_returns (get_default form_data "net_contents") n)
    as [nc [Hnc _]].
  exists a, nc. split; [exact Ha|]. split; [exact Hnc|].
  unfold verify_label. fold n. fold b. fold p. fold g. rewrite Ha, bind_ok.
  destruct (get_truthy form_data "net_contents").
  - rewrite Hnc, !bind_ok.
    erewrite required_loop_all; [reflexivity | | |]; now simplify_map_eq.
  - rewrite bind_ok.
    erewrite required_loop_all; [reflexivity | | |]; now simplify_map_eq.
Qed.

End CheckFacts.

(** * The specification's claims *)

Import VerificationService.

(** C9: each of the five field checks ([_check_brand_name],
    [_check_product_type], [_check_abv], [_check_net_contents],
    [_check_government_warning]) returns, on every input, a dict in which
    ["match"] is true if and only if ["found"] is not [None], and which has
    an ["error"] key if and only if ["match"] is false. *)
Theorem field_checks_keep_invariant (input ocr : string) :
  result_invariant (_check_brand_name input ocr)
  /\ result_invariant (_check_product_type input ocr)
  /\ (exists r, _check_abv input ocr = Ok r /\ result_invariant r)
  /\ (exists r, _check_net_contents input ocr = Ok r /\ result_invariant r)
  /\ result_invariant (_check_government_warning ocr).
Proof.
  split; [apply CheckFacts._check_brand_name_invariant|].
  split; [apply CheckFacts._check_product_type_invariant|].
  split; [apply CheckFacts._check_abv_returns|].
  split; [apply CheckFacts._check_net_contents_returns|].
  apply CheckFacts._check_government_warning_invariant.
Qed.

(** C1: for every request, [verify_label] returns a result whose
    [overall_match] is the conjunction of the ["match"] flags of the
    brand-name, product-type and ABV checks stored in [details]; the
    net-contents and government-warning entries play no part in it.  In
    particular there is a request whose OCR text has no government warning
    and whose net contents are not found, with [overall_match] true. *)
Theorem overall_match_is_and_of_required :
  (forall (form_data : gmap string string) (ocr_text : string),
     let n := _normalize_text ocr_text in
     let b := _check_brand_name (get_default form_data "brand_name") n in
     let p := _check_product_type (get_default form_data "product_type") n in
     exists res a,
       verify_label form_data ocr_text = Ok res
       /\ _check_abv (get_default form_data "abv") n = Ok a
       /\ details res !! "brand_name" = Some b
       /\ details res !! "product_type" = Some p
       /\ details res !! "abv" = Some a
       /\ overall_match res = match_ b && match_ p && match_ a)
  /\ (exists form_data ocr_text res g nc,
        verify_label form_data ocr_text = Ok res
        /\ details res !! "government_warning" = Some g /\ match_ g = false
        /\ details res !! "net_contents" = Some nc /\ match_ nc = false
        /\ overall_match res = true).
Proof.
  split.
  - intros form_data ocr_text n b p.
    destruct (CheckFacts.verify_label_returns form_data ocr_text)
      as [a [nc [Ha [_ E]]]].
    eexists _, a. split; [exact E|]. split; [exact Ha|]. cbn [details overall_match].
    destruct (get_truthy form_data "net_contents"); now simplify_map_eq.
  - exists (<["net_contents" := "750 ml"]>
              (<["brand_name" := "Old Tom"]>
                 (<["product_type" := "Bourbon"]> {[ "abv" := "45" ]}))),
      "OLD TOM BOURBON 45% ALC/VOL".
    eexists _, _, _. split; [vm_compute; reflexivity|].
    repeat split; vm_compute; reflexivity.
Qed.

(** C10: the ["ocr_text"] field of the result of [verify_label] is the
    raw [ocr_text] argument; the field checks are made against the
    normalized text, which can differ from it. *)
Theorem ocr_text_is_returned_raw :
  (forall (form_data : gmap string string) (raw : string),
     exists res,
       verify_label form_data raw = Ok res
       /\ ocr_text res = raw
       /\ details res !! "government_warning"
          = Some (_check_government_warning (_normalize_text raw)))
  /\ (exists form_data raw res,
        verify_label form_data raw = Ok res
        /\ ocr_text res = raw /\ ocr_text res <> _normalize_text raw).
Proof.
  split.
  - intros form_data raw.
    destruct (CheckFacts.verify_label_returns form_data raw) as [a [nc [_ [_ E]]]].
    eexists. split; [exact E|]. cbn [ocr_text details]. split; [reflexivity|].
    now simplify_map_eq.
  - exists ∅, "  GOVERNMENT WARNING  ". eexists. split; [vm_compute; reflexivity|].
    cbn [ocr_text]. split; [reflexivity | discriminate].
Qed.

Lemma truthy_nonempty (s : string) : Str.truthy s = true <-> s <> "".
Proof.
  destruct s; cbn; split; intros H; try reflexivity; try discriminate.
  now elim H.
Qed.

Lemma brand_match_iff (B n : string) :
  match_ (_check_brand_name B n) = true
  <-> B <> "" /\ Str.substring_of (_normalize_text B) n.
Proof.
  unfold _check_brand_name. rewrite <- truthy_nonempty, <- StrFacts.contains_spec.
  destruct (Str.truthy B); cbn [negb match_].
  - destruct (Str.contains _ _); cbn [match_]; intuition congruence.
  - intuition congruence.
Qed.

Lemma product_match_iff (B n : string) :
  match_ (_check_product_type B n) = true
  <-> B <> "" /\ Str.substring_of (_normalize_text B) n.
Proof.
  unfold _check_product_type. rewrite <- truthy_nonempty, <- StrFacts.contains_spec.
  destruct (Str.truthy B); cbn [negb match_].
  - destruct (Str.contains _ _); cbn [match_]; intuition congruence.
  - intuition congruence.
Qed.

(** For a non-empty input without surrounding whitespace, searching the
    normalized input in the normalized text is searching the lowercase
    input in the lowercase text. *)
Lemma normalized_occurrence (B T : string) :
  Str.trimmed B ->
  Str.substring_of (_normalize_text B) (_normalize_text T)
  <-> Str.substring_of (Str.lower B) (Str.lower T).
Proof.
  intros HB. unfold _normalize_text.
  assert (E : Str.strip (Str.lower B) = Str.lower B)
    by (rewrite StrFacts.strip_lower; now rewrite HB).
  split; intros H.
  - rewrite E in H. eapply StrFacts.substring_of_trans; [exact H|].
    apply StrFacts.strip_substring.
  - rewrite <- E. rewrite <- E in H. rewrite E at 1.
    rewrite <- E. now apply StrFacts.substring_of_strip.
Qed.

(** C2, as the code has it: the brand-name and product-type checks refuse
    an empty input, and otherwise search the trimmed lowercase input in
    the trimmed lowercase OCR text.  So for an input [B] that is not empty
    and has no leading or trailing whitespace, ["match"] is true exactly
    when lowercase [B] is a substring of lowercase [T]; and for every
    non-empty [B], an occurrence of lowercase [B] in lowercase [T] is
    enough for ["match"] to be true. *)
Theorem substring_checks (B T : string) :
  let n := _normalize_text T in
  (match_ (_check_brand_name B n) = true
   <-> B <> "" /\ Str.substring_of (_normalize_text B) n)
  /\ (match_ (_check_product_type B n) = true
      <-> B <> "" /\ Str.substring_of (_normalize_text B) n)
  /\ (B <> "" -> Str.trimmed B ->
      (match_ (_check_brand_name B n) = true
       <-> Str.substring_of (Str.lower B) (Str.lower T))
      /\ (match_ (_check_product_type B n) = true
          <-> Str.substring_of (Str.lower B) (Str.lower T)))
  /\ (B <> "" -> Str.substring_of (Str.lower B) (Str.lower T) ->
      match_ (_check_brand_name B n) = true
      /\ match_ (_check_product_type B n) = true).
Proof.
  intros n. split; [apply brand_match_iff|]. split; [apply product_match_iff|].
  split.
  - intros Hne Htrim. rewrite brand_match_iff, product_match_iff.
    unfold n. rewrite (normalized_occurrence B T Htrim). tauto.
  - intros Hne Hsub. rewrite brand_match_iff, product_match_iff.
    assert (Str.substring_of (_normalize_text B) n)
      by (apply StrFacts.substring_of_strip, Hsub).
    tauto.
Qed.

Lemma substring_checks_witness :
  "Tom" <> "" /\ Str.trimmed "Tom"
  /\ Str.substring_of (Str.lower "Tom") (Str.lower "OLD TOM DISTILLERY")
  /\ match_ (_check_brand_name "Tom" (_normalize_text "OLD TOM DISTILLERY")) = true
  /\ match_ (_check_product_type "Tom" (_normalize_text "OLD TOM DISTILLERY")) = true.
Proof.
  assert (Hne : "Tom" <> "") by discriminate.
  assert (Hsub : Str.substring_of (Str.lower "Tom") (Str.lower "OLD TOM DISTILLERY"))
    by (now exists "old ", " distillery").
  split; [exact Hne|]. split; [reflexivity|]. split; [exact Hsub|].
  exact (proj2 (proj2 (proj2 (substring_checks "Tom" "OLD TOM DISTILLERY"))) Hne Hsub).
Defined.

(** C2 as stated fails: lowercase [""] is a substring of every text, yet
    the check of an empty brand name does not match; and [" tom"] is not a
    substring of ["tom"], yet the check matches. *)
Lemma substring_checks_counterexample :
  (Str.substring_of (Str.lower "") (Str.lower "abc")
   /\ match_ (_check_brand_name "" (_normalize_text "abc")) = false)
  /\ (~ Str.substring_of (Str.lower " tom") (Str.lower "tom")
      /\ match_ (_check_brand_name " tom" (_normalize_text "tom")) = true).
Proof.
  split; split; try reflexivity.
  - apply StrFacts.substring_of_empty.
  - rewrite <- StrFacts.contains_spec. discriminate.
Qed.

(** C4, as the code has it: when the form has no net-contents value (or an
    empty one), [verify_label] skips the check, so [details] has no
    ["net_contents"] entry, while the four other entries are there.  It is
    [_check_net_contents] itself that, given an empty input, answers
    ["match"] true with ["found"] set to ["Not checked"]. *)
Theorem net_contents_absent_is_skipped (form_data : gmap string string)
    (raw : string) :
  get_truthy form_data "net_contents" = false ->
  (exists res,
     verify_label form_data raw = Ok res
     /\ details res !! "net_contents" = None
     /\ dom (details res)
        = ({["brand_name"; "product_type"; "abv"; "government_warning"]} : gset string))
  /\ _check_net_contents "" (_normalize_text raw)
     = Ok (mkField true "Not provided" (Some "Not checked") None).
Proof.
  intros H. split; [|reflexivity].
  destruct (CheckFacts.verify_label_returns form_data raw) as [a [nc [_ [_ E]]]].
  rewrite H in E. eexists. split; [exact E|]. cbn [details id]. split.
  - now simplify_map_eq.
  - rewrite !dom_insert_L, dom_empty_L. set_solver.
Qed.

Lemma net_contents_absent_is_skipped_witness :
  get_truthy {[ "brand_name" := "Old Tom" ]} "net_contents" = false
  /\ exists res,
       verify_label {[ "brand_name" := "Old Tom" ]} "OLD TOM" = Ok res
       /\ details res !! "net_contents" = None.
Proof.
  assert (H : get_truthy {[ "brand_name" := "Old Tom" ]} "net_contents" = false)
    by reflexivity.
  split; [exact H|].
  destruct (net_contents_absent_is_skipped {[ "brand_name" := "Old Tom" ]} "OLD TOM" H)
    as [[res [E [N _]]] _].
  exists res. split; [exact E | exact N].
Defined.

(** C4 as stated fails: for a form without net contents the result has no
    ["net_contents"] entry at all. *)
Lemma net_contents_absent_counterexample :
  get_truthy App.label_fields "net_contents" = false
  /\ exists res,
       verify_label App.label_fields "OLD TOM DISTILLERY BOURBON 45%" = Ok res
       /\ overall_match res = true
       /\ details res !! "net_contents" = None.
Proof.
  split; [reflexivity|]. eexists. repeat split; vm_compute; reflexivity.
Qed.

(** ** The ABV pattern for the input ["45"] *)

Module AbvFacts.
Import Re.

Lemma scan_unfold ic r prev s :
  scan ic r prev s
  = match attempt ic r prev s with
    | Some m => Some m
    | None =>
        match s with
        | EmptyString => None
        | String c s' => scan ic r (Some c) s'
        end
    end.
Proof. now destruct s. Qed.

(** A successful attempt somewhere in the text makes the search succeed. *)
Lemma scan_finds ic r (pre s : string) : forall prev,
  (exists m, attempt ic r (Str.last_of prev pre) s = Some m) ->
  exists m, scan ic r prev (pre +:+ s) = Some m.
Proof.
  induction pre as [|c pre IH]; intros prev [m H]; cbn [Str.last_of] in H.
  - cbn [String.append]. rewrite scan_unfold, H. eauto.
  - cbn [String.append]. rewrite scan_unfold.
    destruct (attempt ic r prev _) as [m'|]; [eauto|]. apply IH. eauto.
Qed.

Lemma abv_regex_45 : abv_regex "45" = r45.
Proof. reflexivity. Qed.

Lemma check_abv_45 (text : string) :
  _check_abv "45" text
  = Ok (match scan false r45 None text with
        | Some m => mkField true "45%" (Some (group0 m)) None
        | None => mkField false "45%" None (Some "ABV '45%' not found in label")
        end).
Proof.
  unfold _check_abv. cbn [Str.truthy negb].
  rewrite CheckFacts.search_abv, abv_regex_45, CheckFacts.bind_ok.
  now destruct (scan false r45 None text).
Qed.

End AbvFacts.

Lemma check_net_contents_750 (text : string) :
  _check_net_contents "750 ml" text
  = Ok (match Re.scan true r750 None text with
        | Some m => mkField true "750 ml" (Some (Re.group0 m)) None
        | None => mkField false "750 ml" None
                    (Some "Net contents '750 ml' not found in label")
        end).
Proof.
  unfold _check_net_contents. cbn [Str.truthy negb].
  rewrite CheckFacts.search_volume_eq, CheckFacts.bind_ok.
  change (Re.scan false volume_regex None (_normalize_text "750 ml"))
    with (Some (Re.mkMatch "750 ml" [(2, "ml"); (1, "750")])).
  unfold group_str. cbn [Re.group Re.groups Re.group_lookup Nat.eqb].
  rewrite !CheckFacts.bind_ok.
  change (Str.strip "ml") with "ml".
  rewrite CheckFacts.search_contents by reflexivity. rewrite CheckFacts.bind_ok.
  change (contents_regex "750" "ml") with r750.
  now destruct (Re.scan true r750 None text).
Qed.

Lemma attempt_750ml prev post :
  Re.attempt true r750 prev ("750ml" +:+ post) = Some (Re.mkMatch "750ml" []).
Proof. vm_compute. reflexivity. Qed.

(** C8: the net-contents match is not anchored on the left of the number:
    the input ["750 ml"] matches every OCR text that contains ["750ml"],
    whatever stands before it, and so the text ["1750ml"], where 750 only
    ends a longer number; the ABV check rejects the analogous ["45"]
    against ["145%"]. *)
Theorem net_contents_not_anchored :
  (forall pre post,
     exists r, _check_net_contents "750 ml" (pre +:+ "750ml" +:+ post) = Ok r
               /\ match_ r = true)
  /\ (exists r, _check_net_contents "750 ml" "1750ml" = Ok r
                /\ match_ r = true /\ found r = Some "750ml")
  /\ (exists r, _check_abv "45" "145%" = Ok r /\ match_ r = false).
Proof.
  split; [|split].
  - intros pre post. rewrite check_net_contents_750. eexists. split; [reflexivity|].
    destruct (AbvFacts.scan_finds true r750 pre ("750ml" +:+ post) None) as [m ->];
      [rewrite attempt_750ml; eauto | reflexivity].
  - eexists; split; [vm_compute; reflexivity | split; reflexivity].
  - eexists; split; [vm_compute; reflexivity | reflexivity].
Qed.

(** ** Cleaning the ABV input *)

Lemma all_app (P : ascii -> bool) (a b : string) :
  Str.all P (a +:+ b) = Str.all P a && Str.all P b.
Proof.
  induction a as [|c a IH]; cbn [String.append Str.all]; [reflexivity|].
  now rewrite IH, andb_assoc.
Qed.

Lemma all_substring (P : ascii -> bool) (a b : string) :
  Str.substring_of a b -> Str.all P b = true -> Str.all P a = true.
Proof.
  intros [pre [post ->]] H. rewrite !all_app, !andb_true_iff in H. tauto.
Qed.

Lemma replace_no_percent (s : string) :
  Str.all not_percent (Str.replace "%" "" s) = true.
Proof.
  induction s as [|c s IH]; [reflexivity|]. cbn [Str.replace].
  destruct (Ascii.eqb c "%") eqn:E; [exact IH|].
  cbn [Str.all]. unfold not_percent at 1. now rewrite E, IH.
Qed.

Lemma replace_id (s : string) :
  Str.all not_percent s = true -> Str.replace "%" "" s = s.
Proof.
  induction s as [|c s IH]; [reflexivity|]. cbn [Str.all Str.replace].
  unfold not_percent at 1. intros H. apply andb_true_iff in H as [Hc Hs].
  destruct (Ascii.eqb c "%"); [discriminate|]. now rewrite (IH Hs).
Qed.

(** Removing a trailing [%] first does not change what is left after all
    [%] are removed. *)
Lemma replace_rstrip_percent (s : string) :
  Str.replace "%" "" (rstrip_percent s) = Str.replace "%" "" s.
Proof.
  induction s as [|c s IH]; [reflexivity|].
  destruct s as [|d s].
  - cbn [rstrip_percent Str.replace]. now destruct (Ascii.eqb c "%") eqn:E; cbn; rewrite ?E.
  - change (rstrip_percent (String c (String d s)))
      with (String c (rstrip_percent (String d s))).
    cbn [Str.replace] in *. now rewrite IH.
Qed.

(** C7, as the code has it: the ABV check removes every [%] of the
    (trimmed) input, not only a trailing one, and trims again.  What is
    left, in which no [%] remains, is written regex-escaped between [\b]
    and [(?:\.0)?\s*%], so that the compiled pattern matches its characters
    literally.  When the input has no [%] besides one trailing [%], this
    is the input with the trailing [%] removed. *)
Theorem abv_pattern_drops_every_percent (abv : string) :
  abv_pattern abv = "\b" +:+ Re.escape (abv_clean abv) +:+ "(?:\.0)?\s*%"
  /\ Re.compile (abv_pattern abv) = Some (abv_regex abv)
  /\ Str.all not_percent (abv_clean abv) = true
  /\ (Str.all not_percent (rstrip_percent (Str.strip abv)) = true ->
      abv_clean abv = abv_clean_spec abv).
Proof.
  split; [reflexivity|]. split; [apply ReFacts.compile_abv_pattern|]. split.
  - unfold abv_clean. eapply all_substring; [apply StrFacts.strip_substring|].
    apply replace_no_percent.
  - intros H. unfold abv_clean, abv_clean_spec.
    now rewrite <- replace_rstrip_percent, (replace_id _ H).
Qed.

Lemma abv_pattern_drops_every_percent_witness :
  Str.all not_percent (rstrip_percent (Str.strip " 45% ")) = true
  /\ abv_clean " 45% " = abv_clean_spec " 45% "
  /\ abv_pattern " 45% " = "\b45(?:\.0)?\s*%".
Proof.
  assert (H : Str.all not_percent (rstrip_percent (Str.strip " 45% ")) = true)
    by reflexivity.
  split; [exact H|]. split; [|reflexivity].
  exact (proj2 (proj2 (proj2 (abv_pattern_drops_every_percent " 45% "))) H).
Defined.

(** C7 as stated fails: in the input ["4%5"] the [%] is not trailing, yet
    it is removed, and the pattern is the one for ["45"]. *)
Lemma abv_inner_percent_counterexample :
  abv_clean_spec "4%5" = "4%5"
  /\ abv_clean "4%5" = "45"
  /\ abv_pattern "4%5" = "\b45(?:\.0)?\s*%"
  /\ abv_pattern "4%5" <> "\b" +:+ Re.escape (abv_clean_spec "4%5") +:+ "(?:\.0)?\s*%".
Proof. repeat split; try reflexivity. discriminate. Qed.

(** ** Text extraction *)

Section ExtractClaims.

Variables image enhancer : Type.
Variable os_path_exists : string -> bool.
Variable Image_open : string -> outcome image.
Variable convert : image -> string -> outcome image.
Variable Contrast : image -> outcome enhancer.
Variable enhance : enhancer -> nat -> outcome image.
Variable image_to_string : image -> string -> outcome string.

Local Abbreviation extract :=
  (OCRService.extract_text_from_image image enhancer os_path_exists
     Image_open convert Contrast enhance image_to_string).
Local Abbreviation recognized :=
  (OCRService.recognized image enhancer Image_open convert Contrast enhance
     image_to_string).

(** C6: for every image path, whatever the imaging library and the
    recognizer do, [extract_text_from_image] returns a dict with a
    success flag and raises nothing.  For a file that exists: if the
    trimmed recognizer output is empty the dict is the "no text" failure;
    if a call raises [TesseractNotFoundError] it is the "not installed"
    failure; if a call raises anything else it is the generic processing
    failure; otherwise it is the success dict with the trimmed text.  For
    a file that does not exist it is the "not found" failure. *)
Theorem extract_text_never_raises (image_path : string) :
  exists r,
    extract image_path = Ok r
    /\ r =
       if os_path_exists image_path then
         match recognized image_path with
         | Ok t =>
             if Str.truthy (Str.strip t)
             then OCRService.mkOcr true (Str.strip t) None
             else OCRService.mkOcr false ""
                    (Some "No text could be extracted from the image. The image may be too blurry, too dark, or contain no text.")
         | Raise TesseractNotFoundError =>
             OCRService.mkOcr false ""
               (Some "Tesseract OCR is not installed. Please install it: sudo apt-get install tesseract-ocr")
         | Raise e =>
             OCRService.mkOcr false "" (Some ("Error processing image: " +:+ exn_str e))
         end
       else
         OCRService.mkOcr false "" (Some ("Image file not found: " +:+ image_path)).
Proof.
  unfold OCRService.extract_text_from_image, OCRService.recognized,
    OCRService._preprocess_image.
  destruct (os_path_exists image_path); cbn [negb]; [|eauto].
  destruct (Image_open image_path) as [img|e]; cbn;
    [|destruct e; eauto].
  destruct (convert img "L") as [gray|e]; cbn; [|destruct e; eauto].
  destruct (Contrast gray) as [enh|e]; cbn; [|destruct e; eauto].
  destruct (enhance enh 2) as [processed|e]; cbn; [|destruct e; eauto].
  destruct (image_to_string processed "eng") as [t|e]; cbn; [|destruct e; eauto].
  destruct (Str.truthy (Str.strip t)); cbn; eauto.
Qed.

End ExtractClaims.

(** ** The temporary file of [POST /verify] *)

Section HandlerFacts.

Variables image enhancer : Type.
Variable Image_open : string -> outcome image.
Variable convert : image -> string -> outcome image.
Variable Contrast : image -> outcome enhancer.
Variable enhance : enhancer -> nat -> outcome image.
Variable image_to_string : image -> string -> outcome string.
Variable secure_filename : string -> string.
Variable gettempdir : string.
Variable file_save : App.upload -> string -> App.filesystem
                     -> outcome unit * App.filesystem.

Local Abbreviation verify :=
  (App.verify image enhancer Image_open convert Contrast enhance
     image_to_string secure_filename gettempdir file_save).
Local Abbreviation verify_try :=
  (App.verify_try image enhancer Image_open convert Contrast enhance
     image_to_string file_save).

Lemma cleanup_removes (path : string) (fs fs' : App.filesystem) r :
  App.cleanup path fs = (r, fs') -> path ∉ fs'.
Proof.
  unfold App.cleanup, App.os_remove, App.os_path_exists.
  destruct (bool_decide (path ∈ fs)) eqn:E; intros Hc; inversion Hc; subst.
  - rewrite elem_of_difference, elem_of_singleton. tauto.
  - now apply bool_decide_eq_false in E.
Qed.

(** The success response is built after the temporary file is removed. *)
Lemma verify_try_success_cleans file form_data path fs b fs' :
  verify_try file form_data path fs = (Ok (b, 200), fs') -> path ∉ fs'.
Proof.
  unfold App.verify_try.
  destruct (file_save file path fs) as [[[]|e] fs1]; [|discriminate].
  destruct (App.extract_text_from_image _ _ _ _ _ _ _ _ _) as [o|e]; [|discriminate].
  destruct (negb (OCRService.success o)); [discriminate|].
  destruct (verify_label form_data _) as [v|e]; [|discriminate].
  destruct (App.cleanup path fs1) as [[[]|e] fs2] eqn:C; [|discriminate].
  intros H. injection H as _ <-. eapply cleanup_removes, C.
Qed.

(** A response of the [try] block with status 500 is the OCR failure,
    returned with the file system as [file.save] left it. *)
Lemma verify_try_failure_keeps file form_data path fs b fs' :
  verify_try file form_data path fs = (Ok (b, 500), fs') ->
  exists u, file_save file path fs = (Ok u, fs').
Proof.
  unfold App.verify_try.
  destruct (file_save file path fs) as [[[]|e] fs1]; [|discriminate].
  destruct (App.extract_text_from_image _ _ _ _ _ _ _ _ _) as [o|e]; [|discriminate].
  destruct (negb (OCRService.success o)).
  - intros H. injection H as _ <-. now exists tt.
  - destruct (verify_label form_data _) as [v|e]; [|discriminate].
    destruct (App.cleanup path fs1) as [[[]|e] fs2]; discriminate.
Qed.

End HandlerFacts.

(** C5 does not hold of the code: a request that passes validation, with
    an image in which the recognizer finds no text, is answered with status
    500 and the OCR error while the temporary file [/tmp/label.png], which
    did not exist before the request, is still there; the same request
    with a readable label is answered with status 200 and leaves no file. *)
Theorem ocr_failure_leaves_temp_file :
  App.reads "" App.label_request ∅
  = (Ok (App.ErrorBody
           (Some "No text could be extracted from the image. The image may be too blurry, too dark, or contain no text."),
         500),
     {["/tmp/label.png"]})
  /\ (exists b, App.reads "OLD TOM DISTILLERY BOURBON 45%" App.label_request ∅
                = (Ok (b, 200), ∅)).
Proof.
  split; [vm_compute; reflexivity|]. eexists. vm_compute. reflexivity.
Qed.

(** * Further properties of the code *)

(** ** Normalization *)

Lemma lower_char_idem (c : ascii) :
  Str.lower_char (Str.lower_char c) = Str.lower_char c.
Proof. StrFacts.each_char c. Qed.

Lemma lower_idem (s : string) : Str.lower (Str.lower s) = Str.lower s.
Proof.
  induction s as [|c s IH]; [reflexivity|]. cbn [Str.lower].
  now rewrite lower_char_idem, IH.
Qed.

Lemma lstrip_strip (s : string) : Str.lstrip (Str.strip s) = Str.strip s.
Proof.
  destruct (StrFacts.strip_head s) as [-> | [c [s' [-> Hc]]]]; [reflexivity|].
  cbn [Str.lstrip]. now rewrite Hc.
Qed.

Lemma strip_idem (s : string) : Str.strip (Str.strip s) = Str.strip s.
Proof.
  unfold Str.strip at 1. rewrite lstrip_strip. unfold Str.strip.
  apply StrFacts.rstrip_idem.
Qed.

(** X1: [_normalize_text] is idempotent, and what it returns has no
    whitespace at either end and is its own lowercase form. *)
Theorem normalize_text_idempotent (text : string) :
  _normalize_text (_normalize_text text) = _normalize_text text
  /\ Str.trimmed (_normalize_text text)
  /\ Str.lower (_normalize_text text) = _normalize_text text.
Proof.
  unfold _normalize_text, Str.trimmed. repeat split.
  - now rewrite StrFacts.strip_lower, strip_idem, <- StrFacts.strip_lower, lower_idem.
  - apply strip_idem.
  - now rewrite <- StrFacts.strip_lower, lower_idem.
Qed.

Lemma normalize_idem (text : string) :
  _normalize_text (_normalize_text text) = _normalize_text text.
Proof.
  unfold _normalize_text.
  now rewrite StrFacts.strip_lower, strip_idem, <- StrFacts.strip_lower, lower_idem.
Qed.

(** X2: [verify_label] sees the OCR text only through its normalization:
    two texts with the same normalized form (the same text in another
    letter case, or with other surrounding whitespace) get the same
    [details] and the same [overall_match]. *)
Theorem verify_label_depends_on_normalized_text
    (form_data : gmap string string) (t1 t2 : string) :
  _normalize_text t1 = _normalize_text t2 ->
  exists r1 r2,
    verify_label form_data t1 = Ok r1
    /\ verify_label form_data t2 = Ok r2
    /\ details r1 = details r2
    /\ overall_match r1 = overall_match r2.
Proof.
  intros E.
  destruct (CheckFacts.verify_label_returns form_data t1) as [a1 [n1 [Ha1 [Hn1 E1]]]].
  destruct (CheckFacts.verify_label_returns form_data t2) as [a2 [n2 [Ha2 [Hn2 E2]]]].
  rewrite <- E in Ha2, Hn2, E2.
  rewrite Ha1 in Ha2. injection Ha2 as <-.
  rewrite Hn1 in Hn2. injection Hn2 as <-.
  eexists _, _. split; [exact E1|]. split; [exact E2|]. now split.
Qed.

Lemma verify_label_depends_on_normalized_text_witness :
  _normalize_text "  OLD TOM 45%" = _normalize_text "old tom 45% "
  /\ exists r1 r2,
       verify_label App.label_fields "  OLD TOM 45%" = Ok r1
       /\ verify_label App.label_fields "old tom 45% " = Ok r2
       /\ details r1 = details r2
       /\ overall_match r1 = overall_match r2.
Proof.
  assert (E : _normalize_text "  OLD TOM 45%" = _normalize_text "old tom 45% ")
    by reflexivity.
  split; [exact E|].
  exact (verify_label_depends_on_normalized_text App.label_fields _ _ E).
Defined.

(** X3: the government-warning entry of [verify_label] has ["match"]
    true exactly when the phrase [government warning] occurs in the
    lowercase OCR text: trimming the text never loses an occurrence. *)
Theorem government_warning_iff_phrase_in_text
    (form_data : gmap string string) (raw : string) :
  exists res g,
    verify_label form_data raw = Ok res
    /\ details res !! "government_warning" = Some g
    /\ (match_ g = true
        <-> Str.substring_of "government warning" (Str.lower raw)).
Proof.
  destruct (CheckFacts.verify_label_returns form_data raw) as [a [nc [_ [_ E]]]].
  eexists _, _. split; [exact E|]. cbn [details]. split; [now simplify_map_eq|].
  unfold _check_government_warning.
  rewrite <- (normalized_occurrence "government warning" raw eq_refl).
  change (_normalize_text "government warning") with "government warning".
  rewrite <- StrFacts.contains_spec.
  destruct (Str.contains _ _); cbn [match_]; intuition congruence.
Qed.

(** ** Required and optional fields *)

(** X4: when the form lacks one of the required fields ([brand_name],
    [product_type], [abv]) or holds an empty string for it, [verify_label]
    still returns: the entry of that field has ["match"] false, an empty
    ["expected"] and no ["found"], and [overall_match] is false whatever
    the OCR text says. *)
Theorem missing_required_field_fails
    (form_data : gmap string string) (raw field : string) :
  In field required_fields ->
  get_default form_data field = "" ->
  exists res r,
    verify_label form_data raw = Ok res
    /\ details res !! field = Some r
    /\ match_ r = false /\ expected r = "" /\ found r = None
    /\ overall_match res = false.
Proof.
  intros Hin Hempty.
  destruct (CheckFacts.verify_label_returns form_data raw) as [a [nc [Ha [_ E]]]].
  cbn [required_fields In] in Hin.
  destruct Hin as [<- | [<- | [<- | []]]]; rewrite Hempty in *.
  - eexists _, _. split; [exact E|]. cbn [details overall_match].
    split; [destruct (get_truthy form_data "net_contents"); now simplify_map_eq|].
    now repeat split.
  - eexists _, _. split; [exact E|]. cbn [details overall_match].
    split; [destruct (get_truthy form_data "net_contents"); now simplify_map_eq|].
    repeat split. cbn. now rewrite andb_false_r.
  - cbn in Ha. injection Ha as <-.
    eexists _, _. split; [exact E|]. cbn [details overall_match].
    split; [destruct (get_truthy form_data "net_contents"); now simplify_map_eq|].
    repeat split. cbn. now rewrite andb_false_r.
Qed.

Lemma missing_required_field_fails_witness :
  In "abv" required_fields
  /\ get_default {[ "brand_name" := "Old Tom" ]} "abv" = ""
  /\ exists res,
       verify_label {[ "brand_name" := "Old Tom" ]} "OLD TOM 45%" = Ok res
       /\ overall_match res = false.
Proof.
  assert (Hin : In "abv" required_fields) by (cbn; tauto).
  assert (He : get_default {[ "brand_name" := "Old Tom" ]} "abv" = "") by reflexivity.
  split; [exact Hin|]. split; [exact He|].
  destruct (missing_required_field_fails {[ "brand_name" := "Old Tom" ]}
              "OLD TOM 45%" "abv" Hin He) as [res [r [E [_ [_ [_ [_ O]]]]]]].
  exists res. now split.
Defined.

(** X5: the keys of [details] are [brand_name], [product_type], [abv] and
    [government_warning], together with [net_contents] exactly when the
    form holds a non-empty net-contents value; that entry is then the
    result of [_check_net_contents] on the value and the normalized text. *)
Theorem details_keys (form_data : gmap string string) (raw : string) :
  exists res,
    verify_label form_data raw = Ok res
    /\ dom (details res)
       = ({["brand_name"; "product_type"; "abv"; "government_warning"]} : gset string)
         ∪ (if get_truthy form_data "net_contents" then {["net_contents"]} else ∅)
    /\ (get_truthy form_data "net_contents" = true ->
        exists nc,
          _check_net_contents (get_default form_data "net_contents")
            (_normalize_text raw) = Ok nc
          /\ details res !! "net_contents" = Some nc).
Proof.
  destruct (CheckFacts.verify_label_returns form_data raw) as [a [nc [_ [Hnc E]]]].
  eexists. split; [exact E|]. cbn [details].
  destruct (get_truthy form_data "net_contents"); cbn [id].
  - split.
    + rewrite !dom_insert_L, dom_empty_L. set_solver.
    + intros _. exists nc. split; [exact Hnc | now simplify_map_eq].
  - split; [|discriminate].
    rewrite !dom_insert_L, dom_empty_L. set_solver.
Qed.

Lemma details_keys_witness :
  get_truthy {[ "net_contents" := "750 ml" ]} "net_contents" = true
  /\ exists res nc,
       verify_label {[ "net_contents" := "750 ml" ]} "750ML" = Ok res
       /\ details res !! "net_contents" = Some nc.
Proof.
  assert (H : get_truthy {[ "net_contents" := "750 ml" ]} "net_contents" = true)
    by reflexivity.
  split; [exact H|].
  destruct (details_keys {[ "net_contents" := "750 ml" ]} "750ML") as [res [E [_ N]]].
  destruct (N H) as [nc [_ L]]. exists res, nc. now split.
Defined.

(** ** The ABV input *)

Lemma replace_app (a b : string) :
  Str.replace "%" "" (a +:+ b) = Str.replace "%" "" a +:+ Str.replace "%" "" b.
Proof.
  induction a as [|c a IH]; [reflexivity|]. cbn [String.append Str.replace].
  rewrite IH. now destruct (Ascii.eqb c "%").
Qed.

Lemma lstrip_spaces (s : string) :
  exists w, s = w +:+ Str.lstrip s /\ Str.all Str.isspace w = true.
Proof.
  induction s as [|c s [w [IH A]]]; cbn [Str.lstrip].
  - now exists "".
  - destruct (Str.isspace c) eqn:Hc.
    + exists (String c w). cbn. now rewrite <- IH, Hc, A.
    + now exists "".
Qed.

Lemma rstrip_spaces (s : string) :
  exists w, s = Str.rstrip s +:+ w /\ Str.all Str.isspace w = true.
Proof.
  induction s as [|c s [w [IH A]]]; cbn [Str.rstrip].
  - now exists "".
  - destruct (Str.rstrip s) as [|d r] eqn:E.
    + destruct (Str.isspace c) eqn:Hc.
      * exists (String c s). split; [reflexivity|].
        cbn in IH. subst w. cbn. now rewrite Hc, A.
      * exists w. cbn in IH. subst w. now split.
    + exists w. split; [|exact A]. cbn in IH |- *. now rewrite <- IH.
Qed.

Lemma lstrip_skip (w y : string) :
  Str.all Str.isspace w = true -> Str.lstrip (w +:+ y) = Str.lstrip y.
Proof.
  induction w as [|c w IH]; [reflexivity|]. cbn [Str.all String.append Str.lstrip].
  intros H. apply andb_true_iff in H as [-> Hw]. now apply IH.
Qed.

Lemma rstrip_spaces_nil (w : string) :
  Str.all Str.isspace w = true -> Str.rstrip w = "".
Proof.
  induction w as [|c w IH]; [reflexivity|]. cbn [Str.all Str.rstrip].
  intros H. apply andb_true_iff in H as [-> Hw]. now rewrite (IH Hw).
Qed.

Lemma rstrip_skip (y w : string) :
  Str.all Str.isspace w = true -> Str.rstrip (y +:+ w) = Str.rstrip y.
Proof. intros H. now rewrite StrFacts.rstrip_app, (rstrip_spaces_nil w H). Qed.

(** Whitespace around a string does not change what [strip] returns. *)
Lemma strip_skip (w1 x w2 : string) :
  Str.all Str.isspace w1 = true -> Str.all Str.isspace w2 = true ->
  Str.strip (w1 +:+ x +:+ w2) = Str.strip x.
Proof.
  intros H1 H2. unfold Str.strip. rewrite (lstrip_skip _ _ H1).
  induction x as [|c x IH].
  - cbn [String.append]. rewrite <- (StrFacts.append_nil_r w2) at 1.
    now rewrite (lstrip_skip _ _ H2).
  - cbn [String.append Str.lstrip]. destruct (Str.isspace c); [exact IH|].
    change (String c (x +:+ w2)) with (String c x +:+ w2).
    now apply rstrip_skip.
Qed.

Lemma space_not_percent (c : ascii) :
  Str.isspace c = true -> not_percent c = true.
Proof. StrFacts.each_char c. Qed.

Lemma spaces_no_percent (w : string) :
  Str.all Str.isspace w = true -> Str.replace "%" "" w = w.
Proof.
  intros H. apply replace_id. induction w as [|c w IH]; [reflexivity|].
  cbn [Str.all] in *. apply andb_true_iff in H as [Hc Hw].
  now rewrite (space_not_percent c Hc), (IH Hw).
Qed.

(** The first [strip] of [abv_clean] is redundant. *)
Lemma abv_clean_alt (abv : string) :
  abv_clean abv = Str.strip (Str.replace "%" "" abv).
Proof.
  unfold abv_clean.
  destruct (lstrip_spaces abv) as [w1 [E1 A1]].
  destruct (rstrip_spaces (Str.lstrip abv)) as [w2 [E2 A2]].
  fold (Str.strip abv) in E2. remember (Str.strip abv) as core eqn:Hcore.
  rewrite E2 in E1. rewrite E1.
  rewrite !replace_app, (spaces_no_percent _ A1), (spaces_no_percent _ A2).
  now rewrite (strip_skip _ _ _ A1 A2).
Qed.

(** X6: percent signs typed into the ABV field do not matter, wherever
    they stand: the input with a [%] inserted at any place gives the same
    search pattern, and, unless the input without it is empty, the same
    ["match"] and ["found"]. *)
Theorem abv_ignores_percent_signs (a b ocr : string) :
  abv_pattern (a +:+ "%" +:+ b) = abv_pattern (a +:+ b)
  /\ (a +:+ b <> "" ->
      exists r1 r2,
        _check_abv (a +:+ "%" +:+ b) ocr = Ok r1
        /\ _check_abv (a +:+ b) ocr = Ok r2
        /\ match_ r1 = match_ r2 /\ found r1 = found r2).
Proof.
  assert (E : abv_clean (a +:+ "%" +:+ b) = abv_clean (a +:+ b)).
  { rewrite !abv_clean_alt, !replace_app.
    now change (Str.replace "%" "" "%") with "". }
  split; [unfold abv_pattern; now rewrite E|].
  intros Hne. unfold _check_abv.
  assert (T1 : Str.truthy (a +:+ "%" +:+ b) = true)
    by (apply truthy_nonempty; destruct a; discriminate).
  assert (T2 : Str.truthy (a +:+ b) = true) by now apply truthy_nonempty.
  rewrite T1, T2. cbn [negb]. rewrite !CheckFacts.search_abv, !CheckFacts.bind_ok.
  unfold abv_regex. rewrite E.
  destruct (Re.scan _ _ _ _); eexists _, _; repeat split.
Qed.

Lemma abv_ignores_percent_signs_witness :
  "45" +:+ "" <> ""
  /\ exists r1 r2,
       _check_abv "45%" "alc 45% vol" = Ok r1
       /\ _check_abv "45" "alc 45% vol" = Ok r2
       /\ match_ r1 = match_ r2 /\ found r1 = found r2.
Proof.
  assert (H : "45" +:+ "" <> "") by discriminate.
  split; [exact H|].
  exact (proj2 (abv_ignores_percent_signs "45" "" "alc 45% vol") H).
Defined.

Lemma last_of_snoc (pre : string) (c : ascii) : forall prev,
  Str.last_of prev (pre +:+ String c "") = Some c.
Proof. induction pre as [|d pre IH]; intros prev; [reflexivity | apply IH]. Qed.

(** X7: an ABV input made only of percent signs and whitespace (such as
    ["%"]) is not refused: its pattern has an empty numeric part, and the
    check matches every text in which a percent sign follows a word
    character, whatever the number before it. *)
Theorem abv_without_number_matches_any_percentage
    (abv pre post : string) (c : ascii) :
  abv <> "" -> abv_clean abv = "" -> Str.isword c = true ->
  abv_pattern abv = "\b(?:\.0)?\s*%"
  /\ exists r,
       _check_abv abv (pre +:+ String c ("%" +:+ post)) = Ok r
       /\ match_ r = true.
Proof.
  intros Hne Hclean Hc. split; [unfold abv_pattern; now rewrite Hclean|].
  unfold _check_abv. apply truthy_nonempty in Hne. rewrite Hne. cbn [negb].
  rewrite CheckFacts.search_abv, CheckFacts.bind_ok.
  unfold abv_regex. rewrite Hclean.
  change (pre +:+ String c ("%" +:+ post))
    with (pre +:+ (String c "" +:+ ("%" +:+ post))).
  rewrite <- StrFacts.append_assoc.
  destruct (AbvFacts.scan_finds false
              (Re.seq_of (Re.RWordB :: Re.lit_atoms "" ++
                 [Re.RQuant Re.QOpt (Re.RGroup None (Re.seq_of [Re.RLit "."; Re.RLit "0"]));
                  Re.RQuant Re.QStar (Re.RIn [Re.CSpace]); Re.RLit "%"]))
              (pre +:+ String c "") ("%" +:+ post) None) as [m ->].
  - rewrite last_of_snoc. unfold Re.attempt.
    cbn [Re.seq_of Re.lit_atoms list_ascii_of_string map app foldr Re.mtch String.append].
    unfold Re.word_before at 1. cbn [Re.m_prev Str.isword_opt]. rewrite Hc.
    vm_compute. eauto.
  - eexists. split; reflexivity.
Qed.

Lemma abv_without_number_matches_any_percentage_witness :
  "%" <> "" /\ abv_clean "%" = "" /\ Str.isword "0" = true
  /\ exists r, _check_abv "%" "alc 40% vol" = Ok r /\ match_ r = true.
Proof.
  assert (H1 : "%" <> "") by discriminate.
  assert (H2 : abv_clean "%" = "") by reflexivity.
  assert (H3 : Str.isword "0" = true) by reflexivity.
  split; [exact H1|]. split; [exact H2|]. split; [exact H3|].
  exact (proj2 (abv_without_number_matches_any_percentage "%" "alc 4" " vol" "0" H1 H2 H3)).
Defined.

(** ** What a match consumes *)

Module SpanFacts.
Import Re.

Lemma string_of_list_app (a b : list ascii) :
  string_of_list_ascii (a ++ b)
  = string_of_list_ascii a +:+ string_of_list_ascii b.
Proof. induction a as [|c a IH]; [reflexivity|]. cbn. now rewrite IH. Qed.

Lemma set_group_rest cap t st : m_rest (set_group cap t st) = m_rest st.
Proof. now destruct cap. Qed.

(** The characters a match takes are the ones it finds at the front of
    the text, in order. *)
Lemma matches_span (ic : bool) r st st' :
  matches ic r st st' ->
  exists w, m_taken st' = (w ++ m_taken st)%list
            /\ m_rest st = string_of_list_ascii (rev w) +:+ m_rest st'.
Proof.
  induction 1 as [st|r d s' st E A|st E|r1 r2 st st1 st2 _ IH1 _ IH2
                 |cap r st st' _ IH|r st st' _ IH|r st|r st
                 |r st st1 st2 _ IH1 _ IH2|r st st1 st2 _ IH1 _ IH2].
  - now exists [].
  - exists [d]. split; [reflexivity | exact E].
  - now exists [].
  - destruct IH1 as [w1 [T1 R1]]. destruct IH2 as [w2 [T2 R2]].
    exists (w2 ++ w1)%list. split; [now rewrite T2, T1, app_assoc|].
    now rewrite R1, R2, rev_app_distr, string_of_list_app, StrFacts.append_assoc.
  - rewrite MatchFacts.set_group_taken, set_group_rest. exact IH.
  - exact IH.
  - now exists [].
  - now exists [].
  - destruct IH1 as [w1 [T1 R1]]. destruct IH2 as [w2 [T2 R2]].
    exists (w2 ++ w1)%list. split; [now rewrite T2, T1, app_assoc|].
    now rewrite R1, R2, rev_app_distr, string_of_list_app, StrFacts.append_assoc.
  - destruct IH1 as [w1 [T1 R1]]. destruct IH2 as [w2 [T2 R2]].
    exists (w2 ++ w1)%list. split; [now rewrite T2, T1, app_assoc|].
    now rewrite R1, R2, rev_app_distr, string_of_list_app, StrFacts.append_assoc.
Qed.

(** A search that succeeds did so by an attempt at some place of the text. *)
Lemma scan_locates ic r s : forall prev m,
  scan ic r prev s = Some m ->
  exists pre s' prev', s = pre +:+ s' /\ attempt ic r prev' s' = Some m.
Proof.
  induction s as [|c s IH]; intros prev m H; rewrite AbvFacts.scan_unfold in H;
    destruct (attempt ic r prev _) as [m'|] eqn:E.
  - injection H as ->. now exists "", "", prev.
  - discriminate.
  - injection H as ->. now exists "", (String c s), prev.
  - destruct (IH _ _ H) as [pre [s' [prev' [-> A]]]].
    now exists (String c pre), s', prev'.
Qed.

(** A successful attempt is a match from the state the attempt starts in,
    and [group(0)] is the text that match took. *)
Lemma attempt_matches ic r prev s m :
  attempt ic r prev s = Some m ->
  exists st, matches ic r (mkM prev s [] []) st
             /\ group0 m = string_of_list_ascii (rev (m_taken st))
             /\ groups m = m_groups st.
Proof.
  unfold attempt. intros H.
  destruct (mtch ic r Some _) as [st|] eqn:E; [|discriminate].
  cbn in H. injection H as <-.
  apply MatchFacts.mtch_sound in E as [st' [M K]]. injection K as ->.
  now exists st.
Qed.

(** What [re.search] returns as [group(0)] stands in the text. *)
Lemma scan_group0_in_text ic r prev s m :
  scan ic r prev s = Some m -> Str.substring_of (group0 m) s.
Proof.
  intros H. apply scan_locates in H as [pre [s' [prev' [-> A]]]].
  apply attempt_matches in A as [st [M [G _]]].
  apply matches_span in M as [w [T R]]. cbn [m_taken m_rest] in T, R.
  rewrite app_nil_r in T. rewrite G, T.
  exists pre, (m_rest st). now rewrite R.
Qed.

Lemma matches_char_inv ic r st st' :
  match r with RLit _ | RAny | RIn _ => True | _ => False end ->
  matches ic r st st' ->
  exists d s', m_rest st = String d s' /\ accepts ic r d = true
               /\ st' = advance d s' st.
Proof. intros L M. destruct r; try easy; inversion M; subst; eauto. Qed.

Lemma matches_wordb_inv ic st st' : matches ic RWordB st st' -> st' = st.
Proof. inversion 1; subst; [MatchFacts.not_a_char | reflexivity]. Qed.

Lemma matches_opt_inv ic r st st' :
  matches ic (RQuant QOpt r) st st' -> matches ic r st st' \/ st' = st.
Proof. inversion 1; subst; [MatchFacts.not_a_char | now left | now right]. Qed.

Lemma matches_plus_inv ic r st st' :
  matches ic (RQuant QPlus r) st st' ->
  exists st1, matches ic r st st1 /\ matches ic (RQuant QStar r) st1 st'.
Proof. inversion 1; subst; [MatchFacts.not_a_char | eauto]. Qed.

(** A run of literals takes exactly its own characters. *)
Lemma matches_literals (s : string) (R : regex) : forall st st',
  matches false (foldr RSeq R (lit_atoms s)) st st' ->
  exists st1, m_taken st1 = (rev (list_ascii_of_string s) ++ m_taken st)%list
              /\ matches false R st1 st'.
Proof.
  induction s as [|c s IH]; intros st st' M.
  - now exists st.
  - unfold lit_atoms in M. cbn [list_ascii_of_string map foldr] in M.
    apply MatchFacts.matches_seq_inv in M as [sa [Mc M]].
    apply matches_char_inv in Mc as [d [s' [_ [A ->]]]]; [|exact I].
    cbn [accepts lit_eq] in A. apply Ascii.eqb_eq in A as <-.
    apply IH in M as [st1 [T M]]. exists st1. split; [|exact M].
    rewrite T. cbn [advance m_taken list_ascii_of_string rev].
    now rewrite <- app_assoc.
Qed.

End SpanFacts.

(** ** What the checks report as found *)

(** X8: whenever the brand-name, product-type, ABV or net-contents check
    of a non-empty input reports a match, its ["found"] value is a piece
    of the normalized OCR text it was given. *)
Theorem found_stands_in_text (input ocr : string) :
  input <> "" ->
  (match_ (_check_brand_name input ocr) = true ->
   exists f, found (_check_brand_name input ocr) = Some f /\ Str.substring_of f ocr)
  /\ (match_ (_check_product_type input ocr) = true ->
      exists f, found (_check_product_type input ocr) = Some f /\ Str.substring_of f ocr)
  /\ (forall r, _check_abv input ocr = Ok r -> match_ r = true ->
      exists f, found r = Some f /\ Str.substring_of f ocr)
  /\ (forall r, _check_net_contents input ocr = Ok r -> match_ r = true ->
      exists f, found r = Some f /\ Str.substring_of f ocr).
Proof.
  intros Hne. apply truthy_nonempty in Hne. repeat split.
  - unfold _check_brand_name. rewrite Hne. cbn [negb].
    destruct (Str.contains _ ocr) eqn:C; [|discriminate]. intros _.
    eexists. split; [reflexivity|]. now apply StrFacts.contains_spec.
  - unfold _check_product_type. rewrite Hne. cbn [negb].
    destruct (Str.contains _ ocr) eqn:C; [|discriminate]. intros _.
    eexists. split; [reflexivity|]. now apply StrFacts.contains_spec.
  - intros r. unfold _check_abv. rewrite Hne. cbn [negb].
    rewrite CheckFacts.search_abv, CheckFacts.bind_ok.
    destruct (Re.scan _ _ _ _) as [m|] eqn:S; intros [= <-]; [|discriminate].
    intros _. eexists. split; [reflexivity|].
    eapply SpanFacts.scan_group0_in_text, S.
  - intros r. unfold _check_net_contents. rewrite Hne. cbn [negb].
    rewrite CheckFacts.search_volume_eq, CheckFacts.bind_ok.
    destruct (Re.scan false volume_regex None _) as [vm|] eqn:V;
      [|intros [= <-]; discriminate].
    destruct (MatchFacts.scan_volume _ _ _ V) as [number [unit_raw [G1 [G2 A]]]].
    unfold group_str. rewrite G1, G2, !CheckFacts.bind_ok.
    rewrite (CheckFacts.search_contents _ _ _ A), CheckFacts.bind_ok.
    destruct (Re.scan true _ _ _) as [m|] eqn:S; intros [= <-]; [|discriminate].
    intros _. eexists. split; [reflexivity|].
    eapply SpanFacts.scan_group0_in_text, S.
Qed.

Lemma found_stands_in_text_witness :
  "750 ML" <> ""
  /\ exists r f, _check_net_contents "750 ML" "net 750ml" = Ok r
                 /\ found r = Some f /\ Str.substring_of f "net 750ml".
Proof.
  assert (H : "750 ML" <> "") by discriminate.
  split; [exact H|].
  destruct (CheckFacts._check_net_contents_returns "750 ML" "net 750ml") as [r [E _]].
  assert (M : match_ r = true)
    by (vm_compute in E; injection E as <-; reflexivity).
  destruct (proj2 (proj2 (proj2 (found_stands_in_text "750 ML" "net 750ml" H))) r E M)
    as [f [F S]].
  now exists r, f.
Defined.

Lemma only_spaces :
  Re.only Str.isspace false (Re.RQuant Re.QStar (Re.RIn [Re.CSpace])) = true.
Proof. vm_compute. reflexivity. Qed.

(** What a match of the ABV pattern takes: the cleaned input, an optional
    [.0], whitespace, and a percent sign. *)
Lemma abv_regex_taken (abv : string) (st st' : Re.mstate) :
  Re.m_taken st = [] ->
  Re.matches false (abv_regex abv) st st' ->
  exists d w,
    (d = "" \/ d = ".0") /\ Str.all Str.isspace w = true
    /\ string_of_list_ascii (rev (Re.m_taken st'))
       = abv_clean abv +:+ d +:+ w +:+ "%".
Proof.
  intros T0 M. unfold abv_regex in M. cbn [Re.seq_of foldr] in M.
  rewrite foldr_app in M.
  apply MatchFacts.matches_seq_inv in M as [s0 [Mb M]].
  apply SpanFacts.matches_wordb_inv in Mb as ->.
  apply SpanFacts.matches_literals in M as [s1 [T1 M]].
  rewrite T0, app_nil_r in T1. cbn [foldr] in M.
  apply MatchFacts.matches_seq_inv in M as [s2 [Mo M]].
  apply MatchFacts.matches_seq_inv in M as [s3 [Ms M]].
  apply MatchFacts.matches_seq_inv in M as [s4 [Mp M]].
  apply MatchFacts.matches_eps_inv in M as ->.
  apply SpanFacts.matches_char_inv in Mp as [p [rest [_ [Ap ->]]]]; [|exact I].
  cbn [Re.accepts Re.lit_eq] in Ap. apply Ascii.eqb_eq in Ap as <-.
  destruct (MatchFacts.matches_taken false Str.isspace _ _ _ Ms only_spaces)
    as [w [T3 Fw]].
  assert (Hd : exists dl, Re.m_taken s2 = (dl ++ Re.m_taken s1)%list
                          /\ (dl = [] \/ dl = ["0"; "."]%char)).
  { apply SpanFacts.matches_opt_inv in Mo as [Mg | ->]; [|exists []; auto].
    apply MatchFacts.matches_group_inv in Mg as [sg [Mg ->]].
    cbn [Re.seq_of foldr] in Mg.
    apply MatchFacts.matches_seq_inv in Mg as [sa [Ma Mg]].
    apply MatchFacts.matches_seq_inv in Mg as [sb [Mb Mg]].
    apply MatchFacts.matches_eps_inv in Mg as ->.
    apply SpanFacts.matches_char_inv in Ma as [a [ra [_ [Aa ->]]]]; [|exact I].
    apply SpanFacts.matches_char_inv in Mb as [b [rb [_ [Ab ->]]]]; [|exact I].
    cbn [Re.accepts Re.lit_eq] in Aa, Ab.
    apply Ascii.eqb_eq in Aa as <-. apply Ascii.eqb_eq in Ab as <-.
    exists ["0"; "."]%char. cbn. auto. }
  destruct Hd as [dl [T2 Hdl]].
  exists (string_of_list_ascii (rev dl)), (string_of_list_ascii (rev w)).
  split; [destruct Hdl as [-> | ->]; auto|].
  split; [apply MatchFacts.all_of_list, Forall_rev, Fw|].
  cbn [Re.advance Re.m_taken rev]. rewrite T3, T2, T1.
  rewrite !rev_app_distr, rev_involutive, !SpanFacts.string_of_list_app.
  rewrite string_of_list_ascii_of_string. cbn [rev app string_of_list_ascii].
  now rewrite !StrFacts.append_assoc.
Qed.

(** X9: when the ABV check of a non-empty input reports a match, what it
    found is the cleaned input, then nothing or [.0], then whitespace only,
    then a percent sign; and that text stands in the normalized OCR text. *)
Theorem abv_found_shape (abv ocr : string) (r : field_result) :
  abv <> "" -> _check_abv abv ocr = Ok r -> match_ r = true ->
  exists d w,
    (d = "" \/ d = ".0") /\ Str.all Str.isspace w = true
    /\ found r = Some (abv_clean abv +:+ d +:+ w +:+ "%")
    /\ Str.substring_of (abv_clean abv +:+ d +:+ w +:+ "%") ocr.
Proof.
  intros Hne. apply truthy_nonempty in Hne. unfold _check_abv.
  rewrite Hne. cbn [negb]. rewrite CheckFacts.search_abv, CheckFacts.bind_ok.
  destruct (Re.scan _ _ _ _) as [m|] eqn:S; intros [= <-]; [|discriminate].
  intros _. cbn [found].
  pose proof (SpanFacts.scan_group0_in_text _ _ _ _ _ S) as Hsub.
  apply SpanFacts.scan_locates in S as [pre [s' [prev' [_ A]]]].
  apply SpanFacts.attempt_matches in A as [st [M [G _]]].
  apply abv_regex_taken in M as [d [w [Hd [Hw E]]]]; [|reflexivity].
  rewrite G, E in *. now exists d, w.
Qed.

Lemma abv_found_shape_witness :
  "45" <> ""
  /\ exists r d w,
       _check_abv "45" "alc 45.0 % vol" = Ok r
       /\ found r = Some ("45" +:+ d +:+ w +:+ "%").
Proof.
  assert (H : "45" <> "") by discriminate.
  split; [exact H|].
  destruct (CheckFacts._check_abv_returns "45" "alc 45.0 % vol") as [r [E _]].
  assert (M : match_ r = true)
    by (vm_compute in E; injection E as <-; reflexivity).
  destruct (abv_found_shape "45" "alc 45.0 % vol" r H E M) as [d [w [_ [_ [F _]]]]].
  now exists r, d, w.
Defined.

(** ** Parsing the net-contents input *)

Lemma accepts_digit (d : ascii) :
  Re.accepts false (Re.RIn [Re.CDigit]) d = Str.isdigit d.
Proof. cbn. apply orb_false_r. Qed.

Lemma accepts_unit_char (d : ascii) :
  Re.accepts false (Re.RIn [Re.CRange "a" "z"; Re.CChar "."; Re.CSpace]) d
  = is_unit_char d.
Proof. StrFacts.each_char d. Qed.

(** A match of the volume pattern starts on a digit and, further on, takes
    a character of the class [[a-z.\s]]. *)
Lemma volume_regex_needs (st st' : Re.mstate) :
  Re.matches false volume_regex st st' ->
  (exists d t, Re.m_rest st = String d t /\ Str.isdigit d = true)
  /\ (exists x d t, Re.m_rest st = x +:+ String d t /\ is_unit_char d = true).
Proof.
  intros M. unfold volume_regex in M. cbn [Re.seq_of foldr] in M.
  apply MatchFacts.matches_seq_inv in M as [s1 [M1 M]].
  apply MatchFacts.matches_seq_inv in M as [s2 [M2 M]].
  apply MatchFacts.matches_seq_inv in M as [s3 [M3 _]].
  split.
  - apply MatchFacts.matches_group_inv in M1 as [sa [Ma _]].
    unfold number_regex in Ma. cbn [Re.seq_of foldr] in Ma.
    apply MatchFacts.matches_seq_inv in Ma as [sb [Mp _]].
    apply SpanFacts.matches_plus_inv in Mp as [sc [Mc _]].
    apply SpanFacts.matches_char_inv in Mc as [d [t [R [A _]]]]; [|exact I].
    rewrite accepts_digit in A. eauto.
  - apply SpanFacts.matches_span in M1 as [w1 [_ R1]].
    apply SpanFacts.matches_span in M2 as [w2 [_ R2]].
    apply MatchFacts.matches_group_inv in M3 as [sa [Ma _]].
    unfold unit_regex in Ma. cbn [Re.seq_of foldr] in Ma.
    apply MatchFacts.matches_seq_inv in Ma as [sb [Mp _]].
    apply SpanFacts.matches_plus_inv in Mp as [sc [Mc _]].
    apply SpanFacts.matches_char_inv in Mc as [d [t [R [A _]]]]; [|exact I].
    rewrite accepts_unit_char in A.
    exists (string_of_list_ascii (rev w1) +:+ string_of_list_ascii (rev w2)), d, t.
    split; [|exact A]. now rewrite R1, R2, R, StrFacts.append_assoc.
Qed.

(** X10: a non-empty net-contents input whose normalized form has no
    digit, or no character among the lowercase letters [a]-[z], the dot
    and whitespace, cannot be parsed: whatever the OCR text, the check
    returns ["match"] false with the "Could not parse volume format"
    error, and looks for nothing in the text. *)
Theorem net_contents_needs_number_and_unit (net_contents ocr : string) :
  net_contents <> "" ->
  Str.all (fun c => negb (Str.isdigit c)) (_normalize_text net_contents) = true
  \/ Str.all (fun c => negb (is_unit_char c)) (_normalize_text net_contents) = true ->
  _check_net_contents net_contents ocr = Ok (unparsed_volume net_contents).
Proof.
  intros Hne Hno. apply truthy_nonempty in Hne. unfold _check_net_contents.
  rewrite Hne. cbn [negb]. rewrite CheckFacts.search_volume_eq, CheckFacts.bind_ok.
  destruct (Re.scan false volume_regex None _) as [vm|] eqn:V; [exfalso|reflexivity].
  apply SpanFacts.scan_locates in V as [pre [s' [prev' [E A]]]].
  apply SpanFacts.attempt_matches in A as [st [M _]].
  apply volume_regex_needs in M as [[d [t [R D]]] [x [u [t' [R' U]]]]].
  cbn [Re.m_rest] in R, R'. rewrite E in Hno. destruct Hno as [H | H].
  - rewrite R, all_app in H. cbn [Str.all] in H. rewrite D in H.
    cbn in H. now rewrite andb_false_r in H.
  - rewrite R', !all_app in H. cbn [Str.all] in H. rewrite U in H.
    cbn in H. now rewrite !andb_false_r in H.
Qed.

Lemma net_contents_needs_number_and_unit_witness :
  "750" <> ""
  /\ Str.all (fun c => negb (is_unit_char c)) (_normalize_text "750") = true
  /\ _check_net_contents "750" "750 ml" = Ok (unparsed_volume "750").
Proof.
  assert (H1 : "750" <> "") by discriminate.
  assert (H2 : Str.all (fun c => negb (is_unit_char c)) (_normalize_text "750") = true)
    by reflexivity.
  split; [exact H1|]. split; [exact H2|].
  exact (net_contents_needs_number_and_unit "750" "750 ml" H1 (or_intror H2)).
Defined.

(** ** File names *)

Lemma after_last_none (sep : ascii) (s : string) :
  App.after_last sep s = None
  <-> Str.all (fun c => negb (Ascii.eqb c sep)) s = true.
Proof.
  induction s as [|c s IH]; cbn [App.after_last Str.all]; [tauto|].
  destruct (App.after_last sep s) as [t|].
  - split; [discriminate|]. intros H. apply andb_true_iff in H as [_ H].
    apply IH in H. discriminate.
  - destruct (Ascii.eqb c sep); cbn [negb andb].
    + split; discriminate.
    + split; [intros _; now apply IH | reflexivity].
Qed.

Lemma after_last_some (sep : ascii) (s t : string) :
  App.after_last sep s = Some t
  <-> exists stem, s = stem +:+ String sep t
                   /\ Str.all (fun c => negb (Ascii.eqb c sep)) t = true.
Proof.
  split.
  - revert t. induction s as [|c s IH]; intros t; cbn [App.after_last]; [discriminate|].
    destruct (App.after_last sep s) as [t'|] eqn:E.
    + intros [= <-]. destruct (IH t' eq_refl) as [stem [-> A]].
      now exists (String c stem).
    + destruct (Ascii.eqb c sep) eqn:C; [|discriminate]. intros [= <-].
      apply Ascii.eqb_eq in C as ->. exists "". split; [reflexivity|].
      now apply after_last_none.
  - intros [stem [-> A]]. induction stem as [|c stem IH].
    + cbn [String.append App.after_last].
      apply after_last_none in A. now rewrite A, Ascii.eqb_refl.
    + cbn [String.append App.after_last]. now rewrite IH.
Qed.

(** X11: [allowed_file] accepts a file name exactly when the name has a
    dot and what follows its last dot is, up to letter case, one of [png],
    [jpg], [jpeg], [gif]: earlier extensions do not count, and a name
    without a dot is refused. *)
Theorem allowed_file_iff_last_extension (fname : string) :
  App.allowed_file fname = true
  <-> exists stem ext,
        fname = stem +:+ "." +:+ ext
        /\ Str.all (fun c => negb (Ascii.eqb c ".")) ext = true
        /\ In (Str.lower ext) App.ALLOWED_EXTENSIONS.
Proof.
  unfold App.allowed_file. split.
  - intros H. apply andb_true_iff in H as [_ H].
    destruct (App.after_last "." fname) as [ext|] eqn:E; [|discriminate].
    apply after_last_some in E as [stem [-> A]].
    apply existsb_exists in H as [x [Hin Hx]]. apply String.eqb_eq in Hx as <-.
    now exists stem, ext.
  - intros [stem [ext [-> [A Hin]]]].
    assert (E : App.after_last "." (stem +:+ "." +:+ ext) = Some ext)
      by (apply after_last_some; now exists stem).
    rewrite E. apply andb_true_iff. split.
    + apply StrFacts.contains_spec. now exists stem, ext.
    + apply existsb_exists. exists (Str.lower ext). split; [exact Hin|].
      apply String.eqb_refl.
Qed.

(** ** The result of text extraction *)

Section ExtractFacts.

Variables image enhancer : Type.
Variable os_path_exists : string -> bool.
Variable Image_open : string -> outcome image.
Variable convert : image -> string -> outcome image.
Variable Contrast : image -> outcome enhancer.
Variable enhance : enhancer -> nat -> outcome image.
Variable image_to_string : image -> string -> outcome string.

Local Abbreviation extract :=
  (OCRService.extract_text_from_image image enhancer os_path_exists
     Image_open convert Contrast enhance image_to_string).

(** The two shapes of a result: the trimmed, non-empty text with no error,
    or no text and an error message. *)
Lemma extract_result_shape (image_path : string) :
  exists r,
    extract image_path = Ok r
    /\ ((exists t, r = OCRService.mkOcr true t None
                   /\ t <> "" /\ Str.strip t = t)
        \/ (exists msg, r = OCRService.mkOcr false "" (Some msg))).
Proof.
  unfold OCRService.extract_text_from_image, OCRService._preprocess_image.
  destruct (os_path_exists image_path); cbn [negb]; [|eauto].
  destruct (Image_open image_path) as [img|e]; cbn; [|destruct e; eauto].
  destruct (convert img "L") as [gray|e]; cbn; [|destruct e; eauto].
  destruct (Contrast gray) as [enh|e]; cbn; [|destruct e; eauto].
  destruct (enhance enh 2) as [processed|e]; cbn; [|destruct e; eauto].
  destruct (image_to_string processed "eng") as [t|e]; cbn; [|destruct e; eauto].
  destruct (Str.truthy (Str.strip t)) eqn:T; cbn; [|eauto].
  eexists. split; [reflexivity|]. left. eexists. split; [reflexivity|].
  split; [now apply truthy_nonempty | apply strip_idem].
Qed.

(** A successful result holds what the recognizer read off the file at
    the path, trimmed; and the file was there. *)
Lemma extract_success_recognized (image_path t : string) (err : option string) :
  extract image_path = Ok (OCRService.mkOcr true t err) ->
  os_path_exists image_path = true
  /\ exists raw,
       OCRService.recognized image enhancer Image_open convert Contrast enhance
         image_to_string image_path = Ok raw
       /\ t = Str.strip raw.
Proof.
  unfold OCRService.extract_text_from_image, OCRService.recognized,
    OCRService._preprocess_image.
  destruct (os_path_exists image_path); cbn [negb]; [|discriminate].
  destruct (Image_open image_path) as [img|e]; cbn; [|destruct e; discriminate].
  destruct (convert img "L") as [gray|e]; cbn; [|destruct e; discriminate].
  destruct (Contrast gray) as [enh|e]; cbn; [|destruct e; discriminate].
  destruct (enhance enh 2) as [processed|e]; cbn; [|destruct e; discriminate].
  destruct (image_to_string processed "eng") as [raw|e]; cbn;
    [|destruct e; discriminate].
  destruct (Str.truthy (Str.strip raw)); cbn; [|discriminate].
  intros [= <- _]. split; [reflexivity|]. now exists raw.
Qed.

(** X12: every dict [extract_text_from_image] returns, whatever the
    imaging library and the recognizer do, keeps its three fields in step:
    [success] is true exactly when [text] is not empty, and exactly when
    [error] is [None]; the text has no whitespace at either end. *)
Theorem ocr_result_fields_agree (image_path : string) :
  exists r,
    extract image_path = Ok r
    /\ (OCRService.success r = true <-> OCRService.text r <> "")
    /\ (OCRService.success r = true <-> OCRService.error r = None)
    /\ Str.trimmed (OCRService.text r).
Proof.
  destruct (extract_result_shape image_path) as [r [E H]].
  exists r. split; [exact E|].
  destruct H as [[t [-> [Hne Ht]]] | [msg ->]]; cbn; repeat split; try easy.
Qed.

End ExtractFacts.

(** ** The handler's responses *)

Lemma cleanup_ok (path : string) (fs : App.filesystem) :
  App.cleanup path fs = (Ok tt, fs ∖ {[path]}).
Proof.
  unfold App.cleanup, App.os_remove, App.os_path_exists.
  destruct (bool_decide (path ∈ fs)) eqn:E; [reflexivity|].
  apply bool_decide_eq_false in E. f_equal.
  apply set_eq. intros x. rewrite elem_of_difference, elem_of_singleton.
  split; [intros Hx; split; [exact Hx | now intros ->] | tauto].
Qed.

Lemma form_data_of_required (req : App.request) (field : string) :
  In field App.required_fields ->
  get_default (App.form_data_of req) field = App.form_strip req field.
Proof.
  cbn [App.required_fields In]. unfold get_default, App.form_data_of.
  intros [<- | [<- | [<- | []]]]; now simplify_map_eq.
Qed.

Section HandlerResponses.

Variables image enhancer : Type.
Variable Image_open : string -> outcome image.
Variable convert : image -> string -> outcome image.
Variable Contrast : image -> outcome enhancer.
Variable enhance : enhancer -> nat -> outcome image.
Variable image_to_string : image -> string -> outcome string.
Variable secure_filename : string -> string.
Variable gettempdir : string.
Variable file_save : App.upload -> string -> App.filesystem
                     -> outcome unit * App.filesystem.

Local Abbreviation verify :=
  (App.verify image enhancer Image_open convert Contrast enhance
     image_to_string secure_filename gettempdir file_save).
Local Abbreviation verify_try :=
  (App.verify_try image enhancer Image_open convert Contrast enhance
     image_to_string file_save).
Local Abbreviation temp_path file :=
  (App.os_path_join gettempdir (secure_filename (App.filename file))).
Local Abbreviation post_verify :=
  (App.post_verify image enhancer Image_open convert Contrast enhance
     image_to_string secure_filename gettempdir file_save).
Local Abbreviation recognized :=
  (OCRService.recognized image enhancer Image_open convert Contrast enhance
     image_to_string).

(** A request that is not acceptable is answered at once. *)
Lemma verify_rejects (req : App.request) (fs : App.filesystem) :
  App.acceptable req = false ->
  exists msg, verify req fs = (Ok (App.ErrorBody (Some msg), 400), fs).
Proof.
  unfold App.acceptable, App.verify. fold (App.form_data_of req).
  destruct (App.files req !! "image") as [file|]; [|eauto].
  destruct (Str.truthy (App.filename file)); cbn [negb andb]; [|eauto].
  destruct (App.allowed_file (App.filename file)); cbn [negb andb]; [|eauto].
  cbn [App.required_fields List.filter].
  rewrite !form_data_of_required by (cbn; tauto).
  destruct (Str.truthy (App.form_strip req "brand_name")),
    (Str.truthy (App.form_strip req "product_type")),
    (Str.truthy (App.form_strip req "abv")); cbn [negb andb]; try discriminate; eauto.
Qed.

(** For an acceptable request the handler runs the [try] block. *)
Lemma verify_accepts (req : App.request) (fs : App.filesystem) :
  App.acceptable req = true ->
  exists file,
    App.files req !! "image" = Some file
    /\ verify req fs
       = match verify_try file (App.form_data_of req) (temp_path file) fs with
         | (Ok resp, fs') => (Ok resp, fs')
         | (Raise e, fs1) =>
             (Ok (App.ErrorBody (Some ("Server error: " +:+ exn_str e)), 500),
              fs1 ∖ {[temp_path file]})
         end.
Proof.
  unfold App.acceptable, App.verify. fold (App.form_data_of req).
  destruct (App.files req !! "image") as [file|]; [|discriminate].
  intros H. rewrite !andb_true_iff in H. destruct H as [[[[H1 H2] H3] H4] H5].
  exists file. split; [reflexivity|]. rewrite H1, H2. cbn [negb].
  cbn [App.required_fields List.filter].
  rewrite !form_data_of_required by (cbn; tauto). rewrite H3, H4, H5. cbn [negb].
  destruct (verify_try file _ _ fs) as [[resp|e] fs1]; [reflexivity|].
  now rewrite cleanup_ok.
Qed.

(** What the [try] block does, by the outcome of [file.save]: its
    exception is passed on; after a successful save the block answers
    either the OCR error with status 500, the file left in place, or, the
    saved file being there, the verification of what the recognizer read
    off it, trimmed and not empty, with status 200, the file removed. *)
Lemma verify_try_cases (file : App.upload) (form_data : gmap string string)
    (path : string) (fs : App.filesystem) :
  match file_save file path fs with
  | (Raise e, fs1) => verify_try file form_data path fs = (Raise e, fs1)
  | (Ok _, fs1) =>
      (exists msg,
         verify_try file form_data path fs
         = (Ok (App.ErrorBody (Some msg), 500), fs1))
      \/ (exists raw t res,
            path ∈ fs1 /\ recognized path = Ok raw /\ t = Str.strip raw
            /\ t <> "" /\ Str.strip t = t
            /\ verify_label form_data t = Ok res
            /\ verify_try file form_data path fs
               = (Ok (App.VerifyBody (overall_match res) (details res) (ocr_text res),
                      200),
                  fs1 ∖ {[path]}))
  end.
Proof.
  unfold App.verify_try, App.extract_text_from_image.
  destruct (file_save file path fs) as [[[]|e] fs1]; [|reflexivity].
  destruct (extract_result_shape image enhancer
              (fun p => App.os_path_exists p fs1) Image_open convert Contrast
              enhance image_to_string path)
    as [r [E [[t [-> [Hne Ht]]] | [msg ->]]]]; rewrite E;
    cbn [OCRService.success negb OCRService.error OCRService.text]; [|eauto].
  right. apply extract_success_recognized in E as [X [raw [R T]]].
  apply bool_decide_eq_true in X.
  destruct (CheckFacts.verify_label_returns form_data t) as [a [nc [_ [_ V]]]].
  rewrite V, cleanup_ok. exists raw, t. eexists.
  repeat split; [exact X | exact R | exact T | exact Hne | exact Ht | exact V].
Qed.

(** X13: which requests [POST /verify] answers with status 400.  A request
    body longer than [MAX_CONTENT_LENGTH] is answered with status 413 and
    the message of [file_too_large], whether or not it would pass the
    validation of [verify].  A request within the limit that fails the
    validation (no image part, an empty or disallowed file name, or a blank
    [brand_name], [product_type] or [abv]) is answered with status 400 and
    an error message.  Status 400 is given to no other request.  In each of
    these cases nothing is saved: the file system is as before. *)
Theorem status_400_iff_validation_fails (content_length : N)
    (req : App.request) (fs : App.filesystem) :
  ((App.MAX_CONTENT_LENGTH < content_length)%N ->
   post_verify content_length req fs
   = (Ok (App.ErrorBody (Some "File too large. Maximum size is 16 MB."), 413), fs))
  /\ ((content_length <= App.MAX_CONTENT_LENGTH)%N ->
      App.acceptable req = false ->
      exists msg,
        post_verify content_length req fs = (Ok (App.ErrorBody (Some msg), 400), fs))
  /\ (forall b fs', post_verify content_length req fs = (Ok (b, 400), fs') ->
      (content_length <= App.MAX_CONTENT_LENGTH)%N
      /\ App.acceptable req = false /\ fs' = fs).
Proof.
  unfold App.post_verify, App.file_too_large.
  destruct (N.ltb_spec App.MAX_CONTENT_LENGTH content_length) as [L|L].
  - split; [reflexivity|]. split; [lia|]. intros b fs' H. discriminate H.
  - split; [lia|]. split; [intros _; apply verify_rejects|].
    intros b fs' H. split; [exact L|].
    destruct (App.acceptable req) eqn:A.
    + exfalso. destruct (verify_accepts req fs A) as [file [_ E]]. rewrite E in H.
      pose proof (verify_try_cases file (App.form_data_of req) (temp_path file) fs)
        as C.
      destruct (file_save file (temp_path file) fs) as [[[]|e] fs1].
      * destruct C as [[msg Em] | [raw [t [res [_ [_ [_ [_ [_ [_ Em]]]]]]]]]];
          rewrite Em in H; discriminate.
      * rewrite C in H. discriminate.
    + destruct (verify_rejects req fs A) as [msg E]. rewrite E in H.
      split; [reflexivity|]. now injection H as _ <-.
Qed.

(** X14: a response of [verify] with the verification body has status 200
    and comes from an acceptable request whose upload was saved.  Its
    [ocr_text] is what the recognizer read off the file at the temporary
    path, trimmed, and is not empty; the body is the result of
    [verify_label] on the trimmed form fields and that text; and afterwards
    the files are those the save left, without the temporary file. *)
Theorem success_response (req : App.request) (fs fs' : App.filesystem)
    (o : bool) (d : gmap string field_result) (t : string) (n : nat) :
  verify req fs = (Ok (App.VerifyBody o d t, n), fs') ->
  n = 200 /\ App.acceptable req = true
  /\ t <> "" /\ Str.strip t = t
  /\ verify_label (App.form_data_of req) t = Ok (mkVerify o d t)
  /\ exists file raw fs1,
       App.files req !! "image" = Some file
       /\ file_save file (temp_path file) fs = (Ok tt, fs1)
       /\ temp_path file ∈ fs1
       /\ recognized (temp_path file) = Ok raw
       /\ t = Str.strip raw
       /\ fs' = fs1 ∖ {[temp_path file]}
       /\ temp_path file ∉ fs'.
Proof.
  intros H. destruct (App.acceptable req) eqn:A.
  - destruct (verify_accepts req fs A) as [file [F E]]. rewrite E in H.
    pose proof (verify_try_cases file (App.form_data_of req) (temp_path file) fs) as C.
    destruct (file_save file (temp_path file) fs) as [[[]|e] fs1] eqn:S.
    + destruct C as [[msg Em] | [raw [t' [res [X [R [T [Hne [Ht [V Em]]]]]]]]]];
        rewrite Em in H; [discriminate|].
      injection H as <- <- <- <- <-.
      assert (O : ocr_text res = t').
      { destruct (CheckFacts.verify_label_returns (App.form_data_of req) t')
          as [a [nc [_ [_ V']]]]. rewrite V' in V. now injection V as <-. }
      rewrite O. repeat split; try assumption.
      * rewrite V. f_equal. destruct res. cbn in *. now subst.
      * exists file, raw, fs1. repeat split; try assumption.
        rewrite elem_of_difference, elem_of_singleton. tauto.
    + rewrite C in H. discriminate.
  - destruct (verify_rejects req fs A) as [msg E]. rewrite E in H. discriminate.
Qed.

(** X15: when saving the upload of an acceptable request raises, [verify]
    answers status 500 with ["Server error: "] and the exception's text,
    and of the files that the failed save left, only the temporary file
    is removed. *)
Theorem save_failure_is_answered (req : App.request) (fs fs1 : App.filesystem)
    (file : App.upload) (e : exn) :
  App.acceptable req = true ->
  App.files req !! "image" = Some file ->
  file_save file (temp_path file) fs = (Raise e, fs1) ->
  verify req fs
  = (Ok (App.ErrorBody (Some ("Server error: " +:+ exn_str e)), 500),
     fs1 ∖ {[temp_path file]}).
Proof.
  intros A F S. destruct (verify_accepts req fs A) as [file' [F' E]].
  rewrite F in F'. injection F' as <-. rewrite E.
  pose proof (verify_try_cases file (App.form_data_of req) (temp_path file) fs) as C.
  rewrite S in C. now rewrite C.
Qed.

(** X16: every error response of [POST /verify] has status 400, 413 or
    500 and carries a message: its ["error"] field is never [None], also
    when the response hands on the error of the OCR result. *)
Theorem error_responses_carry_message (content_length : N)
    (req : App.request) (fs fs' : App.filesystem)
    (err : option string) (n : nat) :
  post_verify content_length req fs = (Ok (App.ErrorBody err, n), fs') ->
  (n = 400 \/ n = 413 \/ n = 500) /\ exists msg, err = Some msg.
Proof.
  unfold App.post_verify, App.file_too_large.
  destruct (App.MAX_CONTENT_LENGTH <? content_length)%N.
  { intros [= <- <- _]. eauto. }
  destruct (App.acceptable req) eqn:A.
  - destruct (verify_accepts req fs A) as [file [_ E]]. rewrite E.
    pose proof (verify_try_cases file (App.form_data_of req) (temp_path file) fs) as C.
    destruct (file_save file (temp_path file) fs) as [[[]|e] fs1].
    + destruct C as [[msg ->] | [raw [t [res [_ [_ [_ [_ [_ [_ ->]]]]]]]]]];
        [intros [= <- <- _]; eauto | discriminate].
    + rewrite C. intros [= <- <- _]. eauto.
  - destruct (verify_rejects req fs A) as [msg ->]. intros [= <- <- _]. eauto.
Qed.

End HandlerResponses.


Lemma status_400_iff_validation_fails_witness :
  (App.MAX_CONTENT_LENGTH < 20000000)%N
  /\ App.post_verify unit unit
       (fun _ => Ok tt) (fun img _ => Ok img) (fun img => Ok img)
       (fun enh _ => Ok enh) (fun _ _ => Ok "OLD TOM")
       (fun name => name) "/tmp"
       (fun _ path fs => (Ok tt, {[path]} ∪ fs))
       20000000%N (App.mkRequest ∅ ∅) ∅
     = (Ok (App.ErrorBody (Some "File too large. Maximum size is 16 MB."), 413), ∅)
  /\ (1024 <= App.MAX_CONTENT_LENGTH)%N
  /\ App.acceptable (App.mkRequest ∅ ∅) = false
  /\ exists msg,
       App.post_verify unit unit
         (fun _ => Ok tt) (fun img _ => Ok img) (fun img => Ok img)
         (fun enh _ => Ok enh) (fun _ _ => Ok "OLD TOM")
         (fun name => name) "/tmp"
         (fun _ path fs => (Ok tt, {[path]} ∪ fs))
         1024%N (App.mkRequest ∅ ∅) ∅
       = (Ok (App.ErrorBody (Some msg), 400), ∅).
Proof.
  assert (L : (App.MAX_CONTENT_LENGTH < 20000000)%N) by reflexivity.
  assert (S : (1024 <= App.MAX_CONTENT_LENGTH)%N) by discriminate.
  assert (A : App.acceptable (App.mkRequest ∅ ∅) = false) by reflexivity.
  split; [exact L|]. split.
  - exact (proj1 (status_400_iff_validation_fails unit unit
                    (fun _ => Ok tt) (fun img _ => Ok img) (fun img => Ok img)
                    (fun enh _ => Ok enh) (fun _ _ => Ok "OLD TOM")
                    (fun name => name) "/tmp"
                    (fun _ path fs => (Ok tt, {[path]} ∪ fs))
                    20000000%N (App.mkRequest ∅ ∅) ∅) L).
  - split; [exact S|]. split; [exact A|].
    exact (proj1 (proj2 (status_400_iff_validation_fails unit unit
                    (fun _ => Ok tt) (fun img _ => Ok img) (fun img => Ok img)
                    (fun enh _ => Ok enh) (fun _ _ => Ok "OLD TOM")
                    (fun name => name) "/tmp"
                    (fun _ path fs => (Ok tt, {[path]} ∪ fs))
                    1024%N (App.mkRequest ∅ ∅) ∅)) S A).
Defined.

Lemma success_response_witness :
  exists o d t fs',
    App.reads "  OLD TOM DISTILLERY BOURBON 45%  " App.label_request ∅
    = (Ok (App.VerifyBody o d t, 200), fs')
    /\ t = "OLD TOM DISTILLERY BOURBON 45%" /\ "/tmp/label.png" ∉ fs'.
Proof.
  assert (H : exists o d t fs',
             App.reads "  OLD TOM DISTILLERY BOURBON 45%  " App.label_request ∅
             = (Ok (App.VerifyBody o d t, 200), fs'))
    by (eexists _, _, _, _; vm_compute; reflexivity).
  destruct H as [o [d [t [fs' H]]]]. exists o, d, t, fs'. split; [exact H|].
  destruct (success_response unit unit
              (fun _ => Ok tt) (fun img _ => Ok img) (fun img => Ok img)
              (fun enh _ => Ok enh)
              (fun _ _ => Ok "  OLD TOM DISTILLERY BOURBON 45%  ")
              (fun name => name) "/tmp"
              (fun _ path fs => (Ok tt, {[path]} ∪ fs))
              App.label_request ∅ fs' o d t 200 H)
    as [_ [_ [_ [_ [_ [file [raw [fs1 [F [_ [_ [R [T [_ N]]]]]]]]]]]]]].
  vm_compute in F. injection F as <-.
  vm_compute in R. injection R as <-.
  split; [exact T | exact N].
Defined.

Lemma error_responses_carry_message_witness :
  exists err n fs',
    App.post_verify unit unit
      (fun _ => Ok tt) (fun img _ => Ok img) (fun img => Ok img)
      (fun enh _ => Ok enh) (fun _ _ => Ok "   ")
      (fun name => name) "/tmp"
      (fun _ path fs => (Ok tt, {[path]} ∪ fs))
      1024%N App.label_request ∅
    = (Ok (App.ErrorBody err, n), fs')
    /\ n = 500 /\ exists msg, err = Some msg.
Proof.
  assert (H : exists err fs',
             App.post_verify unit unit
               (fun _ => Ok tt) (fun img _ => Ok img) (fun img => Ok img)
               (fun enh _ => Ok enh) (fun _ _ => Ok "   ")
               (fun name => name) "/tmp"
               (fun _ path fs => (Ok tt, {[path]} ∪ fs))
               1024%N App.label_request ∅
             = (Ok (App.ErrorBody err, 500), fs'))
    by (eexists _, _; vm_compute; reflexivity).
  destruct H as [err [fs' H]]. exists err, 500, fs'. split; [exact H|].
  split; [reflexivity|].
  exact (proj2 (error_responses_carry_message unit unit
                  (fun _ => Ok tt) (fun img _ => Ok img) (fun img => Ok img)
                  (fun enh _ => Ok enh) (fun _ _ => Ok "   ")
                  (fun name => name) "/tmp"
                  (fun _ path fs => (Ok tt, {[path]} ∪ fs))
                  1024%N App.label_request ∅ fs' err 500 H)).
Defined.

Lemma save_failure_is_answered_witness :
  App.acceptable App.label_request = true
  /\ App.verify unit unit
       (fun _ => Ok tt) (fun img _ => Ok img) (fun img => Ok img)
       (fun enh _ => Ok enh) (fun _ _ => Ok "OLD TOM")
       (fun name => name) "/tmp"
       (fun _ _ fs => (Raise (OtherException "disk full"), fs))
       App.label_request ∅
     = (Ok (App.ErrorBody (Some "Server error: disk full"), 500),
        ∅ ∖ {["/tmp/label.png"]}).
Proof.
  assert (A : App.acceptable App.label_request = true) by reflexivity.
  split; [exact A|].
  exact (save_failure_is_answered unit unit
           (fun _ => Ok tt) (fun img _ => Ok img) (fun img => Ok img)
           (fun enh _ => Ok enh) (fun _ _ => Ok "OLD TOM")
           (fun name => name) "/tmp"
           (fun _ _ fs => (Raise (OtherException "disk full"), fs))
           App.label_request ∅ ∅ (App.mkUpload "label.png" "")
           (OtherException "disk full") A eq_refl eq_refl).
Defined.

(** ** The ABV check for the input ["45"] *)

Module AbvAnchor.
Import Re.

Lemma scan_locates_prev ic r s : forall prev m,
  scan ic r prev s = Some m ->
  exists pre s',
    s = pre +:+ s' /\ attempt ic r (Str.last_of prev pre) s' = Some m.
Proof.
  induction s as [|c s IH]; intros prev m H; rewrite AbvFacts.scan_unfold in H;
    destruct (attempt ic r prev _) as [m'|] eqn:E.
  - injection H as ->. now exists "", "".
  - discriminate.
  - injection H as ->. now exists "", (String c s).
  - destruct (IH _ _ H) as [pre [s' [-> A]]].
    now exists (String c pre), s'.
Qed.

Lemma matches_wordb_cond ic st st' :
  matches ic RWordB st st' -> xorb (word_before st) (word_after st) = true.
Proof. inversion 1; subst; [MatchFacts.not_a_char | assumption]. Qed.

(** The end of the pattern, [%], at a percent sign. *)
Lemma percent_next (post : string) (st : mstate) :
  m_rest st = "%" +:+ post ->
  exists res, mtch false (RSeq (RLit "%") REps) Some st = Some res.
Proof. intros E. cbn [mtch]. rewrite E. cbn. eauto. Qed.

(** [\s*%] at whitespace followed by a percent sign. *)
Lemma star_spaces (w post : string) : forall fuel st,
  Str.all Str.isspace w = true ->
  m_rest st = w +:+ "%" +:+ post ->
  String.length w <= fuel ->
  exists res,
    star (mtch false (RIn [CSpace])) fuel
      (mtch false (RSeq (RLit "%") REps) Some) st = Some res.
Proof.
  induction w as [|c w IH]; intros fuel st A E L.
  - destruct fuel; cbn [star]; [now apply (percent_next post)|].
    destruct (mtch false (RIn [CSpace]) _ st); [eauto|].
    now apply (percent_next post).
  - destruct fuel; [cbn in L; lia|]. cbn [Str.all] in A.
    apply andb_true_iff in A as [Ac Aw].
    set (st1 := advance c (w +:+ "%" +:+ post) st).
    destruct (IH fuel st1 Aw eq_refl) as [res R]; [cbn in L; lia|].
    assert (Hlt : (List.length (m_taken st) <? List.length (m_taken st1))%nat = true)
      by (apply Nat.ltb_lt; cbn; lia).
    cbn [star].
    assert (B : mtch false (RIn [CSpace])
      (fun st' => if (List.length (m_taken st) <? List.length (m_taken st'))%nat
                  then star (mtch false (RIn [CSpace])) fuel
                         (mtch false (RSeq (RLit "%") REps) Some) st'
                  else None) st = Some res).
    { change (mtch false (RIn [CSpace]) ?k st)
        with (match m_rest st with
              | String d s' =>
                  if accepts false (RIn [CSpace]) d then k (advance d s' st) else None
              | EmptyString => None
              end).
      rewrite E. cbn [String.append accepts existsb item_matches]. rewrite Ac.
      cbn [orb]. change (advance c (w +:+ String "%" post) st) with st1.
      now rewrite Hlt. }
    rewrite B. eauto.
Qed.

Lemma length_append (a b : string) :
  String.length (a +:+ b) = String.length a + String.length b.
Proof. induction a as [|c a IH]; [reflexivity|]. cbn. now rewrite IH. Qed.

Lemma mtch_lit_seq (c : ascii) (R : regex) k (st : mstate) (s' : string) :
  m_rest st = String c s' ->
  mtch false (RSeq (RLit c) R) k st = mtch false R k (advance c s' st).
Proof.
  intros E. cbn [mtch]. rewrite E. cbn [accepts lit_eq].
  now rewrite Ascii.eqb_refl.
Qed.

(** [\s*%] from a state whose text begins with whitespace and [%]. *)
Lemma spaces_percent (w post : string) (st : mstate) :
  Str.all Str.isspace w = true ->
  m_rest st = w +:+ "%" +:+ post ->
  exists res,
    mtch false (RSeq (RQuant QStar (RIn [CSpace])) (RSeq (RLit "%") REps)) Some st
    = Some res.
Proof.
  intros A E.
  change (mtch false (RSeq (RQuant QStar (RIn [CSpace])) (RSeq (RLit "%") REps)) Some st)
    with (star (mtch false (RIn [CSpace])) (String.length (m_rest st))
            (mtch false (RSeq (RLit "%") REps) Some) st).
  apply (star_spaces w post); [exact A | exact E|].
  rewrite E, length_append. lia.
Qed.

(** [(?:\.0)?\s*%] likewise, with or without the [.0]. *)
Lemma tail_matches (d w post : string) (st : mstate) :
  d = "" \/ d = ".0" ->
  Str.all Str.isspace w = true ->
  m_rest st = d +:+ w +:+ "%" +:+ post ->
  exists res,
    mtch false
      (RSeq (RQuant QOpt (RGroup None (RSeq (RLit ".") (RSeq (RLit "0") REps))))
         (RSeq (RQuant QStar (RIn [CSpace])) (RSeq (RLit "%") REps))) Some st
    = Some res.
Proof.
  intros D A E.
  set (k := mtch false (RSeq (RQuant QStar (RIn [CSpace])) (RSeq (RLit "%") REps)) Some).
  set (G := RGroup None (RSeq (RLit ".") (RSeq (RLit "0") REps))).
  change (mtch false (RSeq (RQuant QOpt G) _) Some st)
    with (match mtch false G k st with Some res => Some res | None => k st end).
  destruct D as [-> | ->].
  - destruct (mtch false G k st); [eauto|]. now apply (spaces_percent w post).
  - assert (H : exists res, mtch false G k st = Some res).
    { unfold G.
      change (mtch false (RGroup None ?r) k st)
        with (mtch false r (fun st' => k (set_group None (captured st st') st')) st).
      erewrite mtch_lit_seq by exact E.
      erewrite mtch_lit_seq by reflexivity.
      cbn [mtch set_group]. now apply (spaces_percent w post). }
    destruct H as [res ->]. eauto.
Qed.

(** The pattern of the input ["45"] matches where a ["45"] has no word
    character before it and [.0], whitespace and [%] follow as allowed. *)
Lemma attempt_45_anchored (prev : option ascii) (d w post : string) :
  Str.isword_opt prev = false ->
  d = "" \/ d = ".0" ->
  Str.all Str.isspace w = true ->
  exists m, attempt false r45 prev ("45" +:+ d +:+ w +:+ "%" +:+ post) = Some m.
Proof.
  intros B D A. unfold attempt.
  assert (H : exists st,
             mtch false r45 Some (mkM prev ("45" +:+ d +:+ w +:+ "%" +:+ post) [] [])
             = Some st).
  { unfold r45.
    change (mtch false (RSeq RWordB ?r) Some ?st)
      with (if xorb (word_before st) (word_after st) then mtch false r Some st else None).
    unfold word_before, word_after. cbn [m_prev m_rest String.append]. rewrite B.
    change (Str.isword "4") with true. cbn [xorb].
    erewrite mtch_lit_seq by reflexivity.
    erewrite mtch_lit_seq by reflexivity.
    now apply (tail_matches d w post). }
  destruct H as [st ->]. cbn. eauto.
Qed.

(** Conversely, an attempt of that pattern succeeds only at such a place. *)
Lemma attempt_45_shape (prev : option ascii) (s : string) (m : match_obj) :
  attempt false r45 prev s = Some m ->
  Str.isword_opt prev = false
  /\ exists d w post,
       s = "45" +:+ d +:+ w +:+ "%" +:+ post
       /\ (d = "" \/ d = ".0") /\ Str.all Str.isspace w = true.
Proof.
  intros H. apply SpanFacts.attempt_matches in H as [st [M _]].
  pose proof (SpanFacts.matches_span _ _ _ _ M) as [t [T R]].
  cbn [m_taken m_rest] in T, R. rewrite app_nil_r in T.
  pose proof M as M'. rewrite <- AbvFacts.abv_regex_45 in M'.
  apply abv_regex_taken in M' as [d [w [D [A E]]]]; [|reflexivity].
  rewrite T in E. rewrite E in R.
  change (abv_clean "45") with "45" in R.
  assert (S : s = "45" +:+ d +:+ w +:+ "%" +:+ m_rest st).
  { rewrite R. now rewrite !StrFacts.append_assoc. }
  split; [|now exists d, w, (m_rest st)].
  unfold r45 in M. apply MatchFacts.matches_seq_inv in M as [s0 [Mb _]].
  apply matches_wordb_cond in Mb. unfold word_before, word_after in Mb.
  cbn [m_prev m_rest] in Mb. rewrite S in Mb. cbn [String.append] in Mb.
  change (Str.isword "4") with true in Mb.
  now destruct (Str.isword_opt prev).
Qed.

End AbvAnchor.

(** C3, as the code has it: for the ABV input ["45"] the check returns, and
    it reports a match exactly when the normalized OCR text has a ["45"]
    that stands at the start of the text or after a non-word character and
    is followed by nothing or [.0], then whitespace (possibly none), then
    [%].  So ["45%"], ["45.0%"] and ["45 %"] are matched wherever they stand
    so, and a text in which every ["45"] comes right after a ["1"] or right
    before a ["0"], as in ["145%"] and ["450%"], is not matched. *)
Theorem abv_45_matches_iff_anchored (text : string) :
  exists r,
    _check_abv "45" text = Ok r
    /\ (match_ r = true <->
        exists pre d w post,
          text = pre +:+ "45" +:+ d +:+ w +:+ "%" +:+ post
          /\ Str.isword_opt (Str.last_of None pre) = false
          /\ (d = "" \/ d = ".0") /\ Str.all Str.isspace w = true)
    /\ (forall pre post,
          Str.isword_opt (Str.last_of None pre) = false ->
          text = pre +:+ "45%" +:+ post \/ text = pre +:+ "45.0%" +:+ post
          \/ text = pre +:+ "45 %" +:+ post ->
          match_ r = true)
    /\ ((forall pre post,
           text = pre +:+ "45" +:+ post ->
           (exists p, pre = p +:+ "1") \/ (exists q, post = "0" +:+ q)) ->
        match_ r = false).
Proof.
  assert (Hyes : forall pre d w post,
             text = pre +:+ "45" +:+ d +:+ w +:+ "%" +:+ post ->
             Str.isword_opt (Str.last_of None pre) = false ->
             d = "" \/ d = ".0" -> Str.all Str.isspace w = true ->
             exists m, Re.scan false r45 None text = Some m).
  { intros pre d w post -> B D A.
    apply AbvFacts.scan_finds, AbvAnchor.attempt_45_anchored; assumption. }
  assert (Hno : forall m, Re.scan false r45 None text = Some m ->
             exists pre d w post,
               text = pre +:+ "45" +:+ d +:+ w +:+ "%" +:+ post
               /\ Str.isword_opt (Str.last_of None pre) = false
               /\ (d = "" \/ d = ".0") /\ Str.all Str.isspace w = true).
  { intros m S. apply AbvAnchor.scan_locates_prev in S as [pre [s' [-> A]]].
    apply AbvAnchor.attempt_45_shape in A as [B [d [w [post [-> [D A]]]]]].
    now exists pre, d, w, post. }
  rewrite AbvFacts.check_abv_45. eexists. split; [reflexivity|].
  destruct (Re.scan false r45 None text) as [m|] eqn:S; cbn [match_].
  - split; [split; [intros _; now apply (Hno m) | reflexivity]|].
    split; [reflexivity|]. intros H. exfalso.
    destruct (Hno m eq_refl) as [pre [d [w [post [E [B [D A]]]]]]].
    destruct (H pre (d +:+ w +:+ "%" +:+ post) E) as [[p ->] | [q Q]].
    + rewrite last_of_snoc in B. discriminate B.
    + destruct D as [-> | ->]; [|discriminate Q].
      destruct w as [|c w]; [discriminate Q|].
      cbn in Q, A. injection Q as -> _. discriminate A.
  - assert (N : ~ exists pre d w post,
               text = pre +:+ "45" +:+ d +:+ w +:+ "%" +:+ post
               /\ Str.isword_opt (Str.last_of None pre) = false
               /\ (d = "" \/ d = ".0") /\ Str.all Str.isspace w = true).
    { intros [pre [d [w [post [E [B [D A]]]]]]].
      destruct (Hyes pre d w post E B D A) as [m Em]. discriminate Em. }
    split; [split; [discriminate | intros H; now destruct N]|].
    split; [|reflexivity]. intros pre post B H. exfalso. apply N.
    destruct H as [-> | [-> | ->]].
    + exists pre, "", "", post. repeat split; auto.
    + exists pre, ".0", "", post. repeat split; auto.
    + exists pre, "", " ", post. repeat split; auto.
Qed.

Lemma abv_45_matches_iff_anchored_witness :
  (exists r, _check_abv "45" "alc. 45% by vol." = Ok r /\ match_ r = true)
  /\ (exists r, _check_abv "45" "lot 145%" = Ok r /\ match_ r = false).
Proof.
  split.
  - destruct (abv_45_matches_iff_anchored "alc. 45% by vol.") as [r [E [_ [P _]]]].
    exists r. split; [exact E|].
    apply (P "alc. " " by vol."); [reflexivity | left; reflexivity].
  - destruct (abv_45_matches_iff_anchored "lot 145%") as [r [E [_ [_ N]]]].
    exists r. split; [exact E|]. apply N. intros pre post H.
    repeat (destruct pre as [|? pre];
            [try discriminate H | injection H as <- H]).
    + left. now exists "lot ".
    + destruct pre; discriminate H.
Defined.

(** C3 as stated fails: ["x45%"] contains ["45%"], yet the check of the
    input ["45"] does not match it, for its ["45"] follows a word
    character. *)
Lemma abv_45_counterexample :
  Str.substring_of "45%" (_normalize_text "x45%")
  /\ exists r, _check_abv "45" (_normalize_text "x45%") = Ok r /\ match_ r = false.
Proof.
  split; [now exists "x", ""|].
  eexists. split; [vm_compute; reflexivity | reflexivity].
Qed.
